(** * claude-code-router: enhanced logging core

    A shallow embedding of the logging control plane found under
    [src/utils/logging]: configuration merging ([ConfigFileIntegration]),
    the output-stream registry ([StreamManager]), the two trackers
    ([StreamStateTracker], [RequestContextTracker]), the error aggregator
    ([ErrorLogger]) and the orchestrator ([LogManager]).

    Conventions of the embedding:
    - a class becomes a record of its private fields and each method a
      function from the record to a result and the next record;
    - [Date.now()] readings are explicit arguments, one per call site;
    - JavaScript numbers that hold counts, byte sizes and millisecond
      clocks are [Z]; quotients of such numbers are exact rationals [Q],
      except the running average of response times, which the code
      feeds back into itself call after call and which is kept as the
      IEEE double it is;
    - a [Map] whose iteration order is observable is an association list
      in insertion order, other maps are [gmap];
    - the pino logger is an external sink: calls to it are recorded as
      [(level, message)] pairs in a trace carried by the tracker. *)

From Stdlib Require Import ZArith QArith Lia List Bool.
From Stdlib Require Import PrimFloat FloatOps SpecFloat.
From stdpp Require Import base gmap strings list sorting.
Import ListNotations.

Local Open Scope string_scope.
Local Open Scope list_scope.

(** ** Common types ([types/common.ts]) *)

Module Common.

(** [Result<T, Error>]: the error carries the [Error]'s message. *)
Inductive Result (T : Type) : Type :=
| Ok (value : T)
| Err (message : string).
Arguments Ok {T} value.
Arguments Err {T} message.

Definition isOk {T} (r : Result T) : bool :=
  match r with Ok _ => true | Err _ => false end.

Definition isErr {T} (r : Result T) : bool := negb (isOk r).

(** JavaScript truthiness of a string: only the empty string is falsy. *)
Definition truthy (s : string) : bool := negb (String.eqb s "").

(** Truthiness of a possibly [undefined] string. *)
Definition truthy_opt (o : option string) : bool :=
  match o with Some s => truthy s | None => false end.

(** [a || b] on strings. *)
Definition or_else (a : option string) (b : string) : string :=
  match a with
  | Some s => if truthy s then s else b
  | None => b
  end.

(** A pino call: severity label and the static message. *)
Inductive Severity := Trace | Debug | Info | Warn | Error | Fatal.
Definition LogLine : Type := Severity * string.

(** Values stored under [Record<string, unknown>] keys. *)
Inductive JsValue :=
| JUndefined
| JNum (n : Z)
| JStr (s : string).

(** [Array.prototype.slice(-n)] for a positive [n]: the last [n] elements. *)
Definition sliceLast {A} (n : nat) (l : list A) : list A :=
  drop (length l - n) l.

(** The IEEE double of an integer-valued number: the integer itself
    below 2^53 in magnitude, the nearest double beyond. *)
Definition toDouble (z : Z) : float :=
  SF2Prim (binary_normalize prec emax z 0 false).

End Common.

(** ** Insertion-ordered [Map<string, V>] *)

Module OrderedMap.

Section Ops.
Context {V : Type}.

Fixpoint get (k : string) (m : list (string * V)) : option V :=
  match m with
  | [] => None
  | (k', v) :: r => if String.eqb k k' then Some v else get k r
  end.

(** [Map.prototype.set]: an existing key keeps its position. *)
Fixpoint set (k : string) (v : V) (m : list (string * V)) : list (string * V) :=
  match m with
  | [] => [(k, v)]
  | (k', v') :: r =>
      if String.eqb k k' then (k, v) :: r else (k', v') :: set k v r
  end.

Fixpoint delete (k : string) (m : list (string * V)) : list (string * V) :=
  match m with
  | [] => []
  | (k', v') :: r =>
      if String.eqb k k' then r else (k', v') :: delete k r
  end.

Definition keys (m : list (string * V)) : list string := map fst m.
Definition values (m : list (string * V)) : list V := map snd m.

End Ops.

End OrderedMap.
Import Common.

(** ** Stream descriptors and configuration *)

Module Types.

Record Rotation := {
  rot_size : option string;
  rot_interval : option string
}.

(** [StreamEntry] of [types/stream-entry.ts], with the fields the
    stream classes read. *)
Record StreamEntry := {
  se_name : string;
  se_type : string;
  se_level : string;
  se_path : option string;
  se_filePath : option string;
  se_rotation : option Rotation;
  se_autoEnd : option bool;
  se_stderr : option bool;
  se_endpoint : option string
}.

(** The [LogConfig] read by [LogManager], [StreamManager] and
    [ConfigFileIntegration.mergeConfigs]. *)
Record LogConfig := {
  level : string;
  timestamp : bool;
  serviceName : string;
  version : string;
  environment : string;
  streams : list StreamEntry
}.

(** A configuration fragment: every field may be absent. *)
Record PartialLogConfig := {
  p_level : option string;
  p_timestamp : option bool;
  p_serviceName : option string;
  p_version : option string;
  p_environment : option string;
  p_streams : option (list StreamEntry)
}.

Definition consoleEntry (n lvl : string) : StreamEntry :=
  {| se_name := n; se_type := "console"; se_level := lvl;
     se_path := None; se_filePath := None; se_rotation := None;
     se_autoEnd := None; se_stderr := None; se_endpoint := None |}.

Definition fileEntry (n lvl p : string) : StreamEntry :=
  {| se_name := n; se_type := "file"; se_level := lvl;
     se_path := Some p; se_filePath := None; se_rotation := None;
     se_autoEnd := None; se_stderr := None; se_endpoint := None |}.

Definition toPartial (c : LogConfig) : PartialLogConfig :=
  {| p_level := Some (level c);
     p_timestamp := Some (timestamp c);
     p_serviceName := Some (serviceName c);
     p_version := Some (version c);
     p_environment := Some (environment c);
     p_streams := Some (streams c) |}.

(** [Partial<StreamEntry>]: [None] is an absent key; for an optional
    field [Some None] is a key present with the value [undefined]. *)
Record PartialStreamEntry := {
  q_name : option string;
  q_type : option string;
  q_level : option string;
  q_path : option (option string);
  q_filePath : option (option string);
  q_rotation : option (option Rotation);
  q_autoEnd : option (option bool);
  q_stderr : option (option bool);
  q_endpoint : option (option string)
}.

Definition noStreamUpdates : PartialStreamEntry :=
  {| q_name := None; q_type := None; q_level := None; q_path := None;
     q_filePath := None; q_rotation := None; q_autoEnd := None;
     q_stderr := None; q_endpoint := None |}.

(** [{ ...existingConfig, ...newConfig }] on stream entries. *)
Definition spreadEntry (e : StreamEntry) (u : PartialStreamEntry) : StreamEntry :=
  let pick {A} (o : option A) (d : A) := match o with Some v => v | None => d end in
  {| se_name := pick (q_name u) (se_name e);
     se_type := pick (q_type u) (se_type e);
     se_level := pick (q_level u) (se_level e);
     se_path := pick (q_path u) (se_path e);
     se_filePath := pick (q_filePath u) (se_filePath e);
     se_rotation := pick (q_rotation u) (se_rotation e);
     se_autoEnd := pick (q_autoEnd u) (se_autoEnd e);
     se_stderr := pick (q_stderr u) (se_stderr e);
     se_endpoint := pick (q_endpoint u) (se_endpoint e) |}.

End Types.
Import Types.

(** ** ConfigFileIntegration ([config/ConfigFileIntegration.ts]) *)

Module ConfigFileIntegration.

(** [enum ConfigPriority]: ENVIRONMENT = 1 (documented as the highest
    priority) ... DEFAULT = 4 (documented as the lowest). *)
Inductive SourceType := environment_src | config_file_src | preset_src | default_src.

Definition ConfigPriority (t : SourceType) : Z :=
  match t with
  | environment_src => 1
  | config_file_src => 2
  | preset_src => 3
  | default_src => 4
  end%Z.

Definition typeName (t : SourceType) : string :=
  match t with
  | environment_src => "environment"
  | config_file_src => "config-file"
  | preset_src => "preset"
  | default_src => "default"
  end.

Record ConfigSource := {
  src_type : SourceType;
  src_priority : Z;
  src_name : option string;
  src_config : PartialLogConfig;
  src_timestamp : Z
}.

(** The variables of [process.env] that the integration reads.
    [LOG_STREAMS] is kept with the outcome of [JSON.parse]: [None] when
    the variable is unset or empty, [Some None] when parsing throws. *)
Record ProcessEnv := {
  LOG_LEVEL : option string;
  LOG_TIMESTAMP : option string;
  LOG_SERVICE_NAME : option string;
  LOG_VERSION : option string;
  NODE_ENV : option string;
  LOG_STREAMS : option (option (list StreamEntry))
}.

(** [EnhancedLoggingConfig]: the part [convertEnhancedToLogConfig] reads. *)
Record EnhancedLoggingConfig := {
  e_level : option string;
  e_timestamp : option bool;
  e_serviceName : option string;
  e_version : option string;
  e_environment : option string;
  e_streams : option (list StreamEntry)
}.

Definition convertEnhancedToLogConfig (pe : ProcessEnv) (e : EnhancedLoggingConfig)
  : LogConfig :=
  {| level := or_else (e_level e) "info";
     timestamp := match e_timestamp e with Some false => false | _ => true end;
     serviceName := or_else (e_serviceName e) "claude-code-router";
     version := or_else (e_version e) "1.0.0";
     environment :=
       or_else (e_environment e) (or_else (NODE_ENV pe) "development");
     streams :=
       match e_streams e with
       | Some l => l
       | None => [consoleEntry "default-console" "info"]
       end |}.

(** [loadEnvironmentConfig]: never returns [null]; the second component
    is the warning pushed when [LOG_STREAMS] does not parse. *)
Definition loadEnvironmentConfig (pe : ProcessEnv) : LogConfig * list string :=
  let base (l : list StreamEntry) :=
    {| level := or_else (LOG_LEVEL pe) "info";
       timestamp := match LOG_TIMESTAMP pe with
                    | Some s => negb (String.eqb s "false")
                    | None => true
                    end;
       serviceName := or_else (LOG_SERVICE_NAME pe) "claude-code-router";
       version := or_else (LOG_VERSION pe) "1.0.0";
       environment := or_else (NODE_ENV pe) "development";
       streams := l |} in
  match LOG_STREAMS pe with
  | None => (base [], [])
  | Some (Some l) => (base l, [])
  | Some None =>
      (base [], ["Failed to parse LOG_STREAMS environment variable"])
  end.

(** [Array.prototype.sort] with comparator [a.priority - b.priority]:
    a stable sort, ascending in the priority number. *)
Fixpoint insertByPriority (s : ConfigSource) (l : list ConfigSource)
  : list ConfigSource :=
  match l with
  | [] => [s]
  | h :: t =>
      if (src_priority s <=? src_priority h)%Z then s :: l
      else h :: insertByPriority s t
  end.

Definition sortByPriority (l : list ConfigSource) : list ConfigSource :=
  fold_right insertByPriority [] l.

Definition mkSource (t : SourceType) (n : option string) (c : PartialLogConfig)
  (now : Z) : ConfigSource :=
  {| src_type := t; src_priority := ConfigPriority t; src_name := n;
     src_config := c; src_timestamp := now |}.

(** [collectConfigSources]: pushes default, preset, config file and
    environment in that order, then sorts.  [preset] is the outcome of
    [configLoader.getPreset] (with the preset's name) and [file] that of
    [configLoader.getLoggingConfig], [None] when the loader is absent or
    the call fails. *)
Definition collectConfigSources (pe : ProcessEnv) (now : Z)
  (defaultConfig : LogConfig)
  (preset : option (string * EnhancedLoggingConfig))
  (file : option PartialLogConfig) : list ConfigSource :=
  let s0 := [mkSource default_src None (toPartial defaultConfig) now] in
  let s1 := match preset with
            | Some (n, e) =>
                s0 ++ [mkSource preset_src (Some n)
                         (toPartial (convertEnhancedToLogConfig pe e)) now]
            | None => s0
            end in
  let s2 := match file with
            | Some c => s1 ++ [mkSource config_file_src None c now]
            | None => s1
            end in
  let s3 := s2 ++ [mkSource environment_src None
                     (toPartial (fst (loadEnvironmentConfig pe))) now] in
  sortByPriority s3.

(** The accumulator of [mergeConfigs]: the configuration under
    construction and the two output arrays it pushes to. *)
Record MergeState := {
  mergedConfig : LogConfig;
  mergedPaths : list string;
  conflicts : list string
}.

Definition initialMerged (pe : ProcessEnv) : LogConfig :=
  {| level := "info";
     timestamp := true;
     serviceName := "claude-code-router";
     version := "1.0.0";
     environment := or_else (NODE_ENV pe) "development";
     streams := [] |}.

Definition setLevel (c : LogConfig) (v : string) : LogConfig :=
  {| level := v; timestamp := timestamp c; serviceName := serviceName c;
     version := version c; environment := environment c; streams := streams c |}.
Definition setTimestamp (c : LogConfig) (v : bool) : LogConfig :=
  {| level := level c; timestamp := v; serviceName := serviceName c;
     version := version c; environment := environment c; streams := streams c |}.
Definition setServiceName (c : LogConfig) (v : string) : LogConfig :=
  {| level := level c; timestamp := timestamp c; serviceName := v;
     version := version c; environment := environment c; streams := streams c |}.
Definition setVersion (c : LogConfig) (v : string) : LogConfig :=
  {| level := level c; timestamp := timestamp c; serviceName := serviceName c;
     version := v; environment := environment c; streams := streams c |}.
Definition setEnvironment (c : LogConfig) (v : string) : LogConfig :=
  {| level := level c; timestamp := timestamp c; serviceName := serviceName c;
     version := version c; environment := v; streams := streams c |}.
Definition setStreams (c : LogConfig) (v : list StreamEntry) : LogConfig :=
  {| level := level c; timestamp := timestamp c; serviceName := serviceName c;
     version := version c; environment := environment c; streams := v |}.

(** One scalar string field: [if (src.f && src.f !== merged.f) { push; assign }]. *)
Definition mergeString (field : string) (t : SourceType)
  (get : LogConfig -> string) (set : LogConfig -> string -> LogConfig)
  (v : option string) (st : MergeState) : MergeState :=
  match v with
  | Some s =>
      if truthy s && negb (String.eqb s (get (mergedConfig st))) then
        {| mergedConfig := set (mergedConfig st) s;
           mergedPaths := mergedPaths st
                          ++ [String.append field (String.append " from " (typeName t))];
           conflicts := conflicts st |}
      else st
  | None => st
  end.

Definition mergeTimestamp (t : SourceType) (v : option bool) (st : MergeState)
  : MergeState :=
  match v with
  | Some b =>
      if negb (Bool.eqb b (timestamp (mergedConfig st))) then
        {| mergedConfig := setTimestamp (mergedConfig st) b;
           mergedPaths := mergedPaths st
                          ++ [String.append "timestamp from " (typeName t)];
           conflicts := conflicts st |}
      else st
  | None => st
  end.

Definition hasName (names : list string) (n : string) : bool :=
  existsb (String.eqb n) names.

(** The inner loop over a source's streams; [existing] is the name set
    computed once before the loop. *)
Definition mergeOneStream (t : SourceType) (existing : list string)
  (st : MergeState) (s : StreamEntry) : MergeState :=
  if hasName existing (se_name s) then
    {| mergedConfig := mergedConfig st;
       mergedPaths := mergedPaths st;
       conflicts := conflicts st
         ++ [String.append "Stream '"
               (String.append (se_name s)
                  (String.append "' conflict from " (typeName t)))] |}
  else
    {| mergedConfig := setStreams (mergedConfig st) (streams (mergedConfig st) ++ [s]);
       mergedPaths := mergedPaths st
         ++ [String.append "stream '"
               (String.append (se_name s)
                  (String.append "' from " (typeName t)))];
       conflicts := conflicts st |}.

Definition mergeStreams (t : SourceType) (v : option (list StreamEntry))
  (st : MergeState) : MergeState :=
  match v with
  | Some (s :: rest) =>
      match streams (mergedConfig st) with
      | [] =>
          {| mergedConfig := setStreams (mergedConfig st) (s :: rest);
             mergedPaths := mergedPaths st
                            ++ [String.append "streams from " (typeName t)];
             conflicts := conflicts st |}
      | _ :: _ =>
          let existing := map se_name (streams (mergedConfig st)) in
          fold_left (mergeOneStream t existing) (s :: rest) st
      end
  | _ => st
  end.

(** The body of the [for (const source of sources)] loop. *)
Definition mergeSource (st : MergeState) (source : ConfigSource) : MergeState :=
  let c := src_config source in
  let t := src_type source in
  let st := mergeString "level" t level setLevel (p_level c) st in
  let st := mergeTimestamp t (p_timestamp c) st in
  let st := mergeString "serviceName" t serviceName setServiceName (p_serviceName c) st in
  let st := mergeString "version" t version setVersion (p_version c) st in
  let st := mergeString "environment" t environment setEnvironment (p_environment c) st in
  mergeStreams t (p_streams c) st.

Definition mergeConfigs (pe : ProcessEnv) (sources : list ConfigSource) : MergeState :=
  fold_left mergeSource sources
    {| mergedConfig := initialMerged pe; mergedPaths := []; conflicts := [] |}.

(** One resolution pass, up to the point where [integrateConfig] hands
    the merged configuration to the configuration manager. *)
Definition resolve (pe : ProcessEnv) (now : Z) (defaultConfig : LogConfig)
  (preset : option (string * EnhancedLoggingConfig))
  (file : option PartialLogConfig) : MergeState :=
  mergeConfigs pe (collectConfigSources pe now defaultConfig preset file).

(** The line pushed to [conflicts] for a stream of a source. *)
Definition conflictLine (t : SourceType) (s : StreamEntry) : string :=
  String.append "Stream '"
    (String.append (se_name s) (String.append "' conflict from " (typeName t))).

(** The stream names a source declares. *)
Definition declaredNames (source : ConfigSource) : list string :=
  match p_streams (src_config source) with
  | Some l => map se_name l
  | None => []
  end.

End ConfigFileIntegration.

(** ** StreamManager ([streams/StreamManager.ts]) *)

Module StreamManager.

(** The destination handles the stream classes hand out.  [RollPromise]
    is what [PinoRollStream] stores: the value of [roll(filePath, {...})].
    The export of pino-roll is an async function, so that value is a
    Promise and not a writable. *)
Inductive Writable :=
| Stdout
| Stderr
| FileStream (path : string)
| RollPromise (path size interval : string).

(** [stream.stream.end()]: a writable is ended; a Promise has no [end]
    method, so the call throws a [TypeError]. *)
Definition endStream (w : Writable) : Result unit :=
  match w with
  | RollPromise _ _ _ => Err "stream.stream.end is not a function"
  | _ => Ok tt
  end.

(** [pino.MultiStreamRes]. *)
Record MultiStreamRes := {
  stream : Writable;
  ms_level : string;
  autoEnd : bool
}.

(** The host as the stream classes see it while they construct:
    [path.dirname], [fs.existsSync], and whether
    [fs.mkdirSync(dir, { recursive: true })] returns ([false]: it
    throws).  Opening the file is not part of it: [createWriteStream]
    opens asynchronously and reports a failure through the [error] event
    of the stream. *)
Record Host := {
  dirname : string -> string;
  existsSync : string -> bool;
  mkdirSync : string -> bool
}.

(** [if (!existsSync(dir)) { mkdirSync(dir, { recursive: true }); }] with
    [dir = dirname(path)]: whether it goes through. *)
Definition ensureDir (h : Host) (path : string) : bool :=
  existsSync h (dirname h path) || mkdirSync h (dirname h path).

Definition notInitialized : string :=
  "Stream not initialized. Call initialize() first.".

(** [ConsoleStream.initialize] then [getStream]. *)
Definition consoleStream (e : StreamEntry) : Result Writable :=
  match se_stderr e with
  | Some true => Ok Stderr
  | _ => Ok Stdout
  end.

(** [DestinationStream.initialize] then [getStream]: the result of
    [initialize] is not inspected by the caller, so a failed
    initialisation shows up as the exception of [getStream]. *)
Definition destinationStream (h : Host) (e : StreamEntry) : Result Writable :=
  match se_path e with
  | Some p =>
      if truthy p && ensureDir h p then Ok (FileStream p)
      else Err notInitialized
  | None => Err notInitialized
  end.

(** [PinoRollStream.initialize] then [getStream]. *)
Definition pinoRollStream (h : Host) (e : StreamEntry) (r : Rotation)
  : Result Writable :=
  let filePath :=
    if truthy_opt (se_path e) then se_path e else se_filePath e in
  match filePath with
  | Some p =>
      if truthy p && ensureDir h p
      then Ok (RollPromise p (or_else (rot_size r) "10M")
                 (or_else (rot_interval r) "1d"))
      else Err notInitialized
  | None => Err notInitialized
  end.

Definition createStream (h : Host) (entry : StreamEntry) : Result MultiStreamRes :=
  let wrap (w : Result Writable) :=
    match w with
    | Ok s => Ok {| stream := s; ms_level := se_level entry;
                    autoEnd := match se_autoEnd entry with
                               | Some b => b
                               | None => true
                               end |}
    | Err m => Err m
    end in
  if String.eqb (se_type entry) "file" then
    match se_rotation entry with
    | Some r => wrap (pinoRollStream h entry r)
    | None => wrap (destinationStream h entry)
    end
  else if String.eqb (se_type entry) "console" then
    wrap (consoleStream entry)
  else Err (String.append "Unsupported stream type: " (se_type entry)).

(** The private fields, plus the trace of handles that [end()] ended
    and of the [console.error] lines. *)
Record t := {
  streams : list (string * MultiStreamRes);
  activeStreams : gset string;
  config : LogConfig;
  ended : list Writable;
  consoleErrors : list string
}.

Definition new (c : LogConfig) : t :=
  {| streams := []; activeStreams := ∅; config := c;
     ended := []; consoleErrors := [] |}.

(** The body of the loop of [createDefaultStreams]. *)
Definition createDefaultStream (h : Host) (m : t) (streamConfig : StreamEntry) : t :=
  match createStream h streamConfig with
  | Ok s =>
      {| streams := OrderedMap.set (se_name streamConfig) s (streams m);
         activeStreams := {[ se_name streamConfig ]} ∪ activeStreams m;
         config := config m; ended := ended m;
         consoleErrors := consoleErrors m |}
  | Err msg =>
      {| streams := streams m; activeStreams := activeStreams m;
         config := config m; ended := ended m;
         consoleErrors := consoleErrors m
           ++ [String.append "Failed to create stream "
                 (String.append (se_name streamConfig) ":")] |}
  end.

Definition createDefaultStreams (h : Host) (m : t) : t :=
  fold_left (createDefaultStream h) (Types.streams (config m)) m.

Definition initialize (h : Host) (m : t) : Result unit * t :=
  (Ok tt, createDefaultStreams h m).

(** [getMultiStreams]: keeps a stream when the set of active stream
    names has a member equal to [stream.level || 'info']. *)
Definition getMultiStreams (m : t) : list MultiStreamRes :=
  List.filter (fun s =>
            bool_decide ((if truthy (ms_level s) then ms_level s else "info")
                         ∈ activeStreams m))
         (OrderedMap.values (streams m)).

Definition addStream (h : Host) (entry : StreamEntry) (m : t) : Result unit * t :=
  match createStream h entry with
  | Ok s =>
      (Ok tt,
       {| streams := OrderedMap.set (se_name entry) s (streams m);
          activeStreams := {[ se_name entry ]} ∪ activeStreams m;
          config := config m; ended := ended m;
          consoleErrors := consoleErrors m |})
  | Err msg => (Err msg, m)
  end.

(** [if (stream.autoEnd) { stream.stream.end(); }]. *)
Definition endIfOwned (s : MultiStreamRes) : Result unit :=
  if autoEnd s then endStream (stream s) else Ok tt.

(** [removeStream]: when [end()] throws, the [catch] returns the error
    and the two deletions are not reached. *)
Definition removeStream (name : string) (m : t) : Result unit * t :=
  match OrderedMap.get name (streams m) with
  | Some s =>
      match endIfOwned s with
      | Ok _ =>
          (Ok tt,
           {| streams := OrderedMap.delete name (streams m);
              activeStreams := activeStreams m ∖ {[ name ]};
              config := config m;
              ended := if autoEnd s then ended m ++ [stream s] else ended m;
              consoleErrors := consoleErrors m |})
      | Err e => (Err e, m)
      end
  | None => (Err (String.append "Stream not found: " name), m)
  end.

(** The body of the loop of [cleanup]: an [end()] that throws is caught
    and reported with [console.error]. *)
Definition endOrReport (m : t) (kv : string * MultiStreamRes) : t :=
  if autoEnd (snd kv) then
    match endStream (stream (snd kv)) with
    | Ok _ =>
        {| streams := streams m; activeStreams := activeStreams m;
           config := config m; ended := ended m ++ [stream (snd kv)];
           consoleErrors := consoleErrors m |}
    | Err _ =>
        {| streams := streams m; activeStreams := activeStreams m;
           config := config m; ended := ended m;
           consoleErrors := consoleErrors m
             ++ [String.append "Error ending stream "
                   (String.append (fst kv) ":")] |}
    end
  else m.

(** [cleanup]: ends every stream that owns its life cycle, then clears
    both collections. *)
Definition cleanup (m : t) : t :=
  let m1 := fold_left endOrReport (streams m) m in
  {| streams := [];
     activeStreams := ∅;
     config := config m;
     ended := ended m1;
     consoleErrors := consoleErrors m1 |}.

Definition updateConfig (c : LogConfig) (m : t) : t :=
  {| streams := streams m; activeStreams := activeStreams m; config := c;
     ended := ended m; consoleErrors := consoleErrors m |}.

Definition getStreamStatus (name : string) (m : t) : Result (bool * string) :=
  match OrderedMap.get name (streams m) with
  | Some s => Ok (bool_decide (name ∈ activeStreams m), ms_level s)
  | None => Err (String.append "Stream not found: " name)
  end.

(** [Array.prototype.find(s => s.name === name)]. *)
Fixpoint findEntry (name : string) (l : list StreamEntry) : option StreamEntry :=
  match l with
  | [] => None
  | e :: r => if String.eqb (se_name e) name then Some e else findEntry name r
  end.

(** [streams[findIndex(s => s.name === name)] = updated]: the first
    entry of that name is replaced. *)
Fixpoint replaceEntry (name : string) (updated : StreamEntry)
  (l : list StreamEntry) : list StreamEntry :=
  match l with
  | [] => []
  | e :: r =>
      if String.eqb (se_name e) name then updated :: r
      else e :: replaceEntry name updated r
  end.

Definition setConfigStreams (c : LogConfig) (l : list StreamEntry) : LogConfig :=
  {| level := level c; timestamp := timestamp c;
     serviceName := serviceName c; version := version c;
     environment := environment c; Types.streams := l |}.

(** [updateStream]: the old stream is removed first; nothing puts it
    back when a later step fails. *)
Definition updateStream (h : Host) (name : string)
  (newConfig : PartialStreamEntry) (m : t) : Result unit * t :=
  match removeStream name m with
  | (Err e, m1) => (Err e, m1)
  | (Ok _, m1) =>
      match findEntry name (Types.streams (config m1)) with
      | None =>
          (Err (String.append "Stream configuration not found: " name), m1)
      | Some existingConfig =>
          let updatedConfig := spreadEntry existingConfig newConfig in
          match addStream h updatedConfig m1 with
          | (Err e, m2) => (Err e, m2)
          | (Ok _, m2) =>
              (Ok tt,
               {| streams := streams m2;
                  activeStreams := activeStreams m2;
                  config :=
                    setConfigStreams (config m2)
                      (replaceEntry name updatedConfig
                         (Types.streams (config m2)));
                  ended := ended m2;
                  consoleErrors := consoleErrors m2 |})
          end
      end
  end.

(** [getAllStreamStatus], in the iteration order of the map. *)
Definition getAllStreamStatus (m : t) : list (string * (bool * string)) :=
  map (fun kv => (fst kv,
                  (bool_decide (fst kv ∈ activeStreams m), ms_level (snd kv))))
      (streams m).

(** One public call on the registry, and a run of such calls. *)
Inductive Call :=
| CallInitialize
| CallAddStream (entry : StreamEntry)
| CallRemoveStream (name : string)
| CallUpdateStream (name : string) (newConfig : PartialStreamEntry)
| CallCleanup
| CallUpdateConfig (c : LogConfig).

Definition call (h : Host) (m : t) (c : Call) : t :=
  match c with
  | CallInitialize => snd (initialize h m)
  | CallAddStream entry => snd (addStream h entry m)
  | CallRemoveStream name => snd (removeStream name m)
  | CallUpdateStream name newConfig => snd (updateStream h name newConfig m)
  | CallCleanup => cleanup m
  | CallUpdateConfig c => updateConfig c m
  end.

Definition calls (h : Host) (cs : list Call) (m : t) : t :=
  fold_left (call h) cs m.

(** The registry holds each name once, and the active set holds exactly
    the registered names. *)
Definition namesConsistent (m : t) : Prop :=
  NoDup (OrderedMap.keys (streams m))
  ∧ ∀ n, n ∈ activeStreams m ↔ n ∈ OrderedMap.keys (streams m).

End StreamManager.

(** ** The pino logger handed to the trackers *)

Module Pino.

(** What [pino(options, pino.multistream(streams))] is built from. *)
Record Logger := {
  lg_level : string;
  lg_service : string;
  lg_version : string;
  lg_environment : string;
  lg_timestamp : bool;
  lg_streams : list StreamManager.MultiStreamRes
}.

Definition pino (c : LogConfig) (multiStreams : list StreamManager.MultiStreamRes)
  : Logger :=
  {| lg_level := level c;
     lg_service := serviceName c;
     lg_version := version c;
     lg_environment := environment c;
     lg_timestamp := timestamp c;
     lg_streams := multiStreams |}.

End Pino.

(** ** StreamStateTracker ([tracking/StreamStateTracker.ts]) *)

Module StreamStateTracker.

Local Open Scope Z_scope.

Inductive Status := started | progress | completed | error | paused.

Record StreamError := {
  err_timestamp : Z;
  err_name : string;
  err_message : string;
  err_context : list (string * JsValue)
}.

Record StreamState := {
  id : string;
  status : Status;
  st_startTime : Z;
  contentType : string;
  expectedSize : option Z;
  bytesReceived : Z;
  chunksReceived : Z;
  endTime : option Z;
  duration : option Z;
  pauseTime : option Z;
  totalPauseDuration : option Z;
  st_error : option StreamError
}.

Record StreamProgress := {
  streamId : string;
  startTime : Z;
  lastUpdateTime : Z;
  bytesTransferred : Z;
  chunksTransferred : Z;
  transferRate : Q;
  estimatedTimeRemaining : option Q;
  percentage : Q
}.

Record t := {
  logger : Pino.Logger;
  activeStreams : gmap string StreamState;
  streamProgress : gmap string StreamProgress;
  streamErrors : gmap string (list StreamError);
  metrics : gmap string (gmap string Q);
  emitted : list LogLine
}.

Definition new (lg : Pino.Logger) : t :=
  {| logger := lg; activeStreams := ∅; streamProgress := ∅;
     streamErrors := ∅; metrics := ∅; emitted := [] |}.

Definition initialize (tr : t) : Result unit * t :=
  (Ok tt,
   {| logger := logger tr; activeStreams := activeStreams tr;
      streamProgress := streamProgress tr; streamErrors := streamErrors tr;
      metrics := metrics tr;
      emitted := emitted tr ++ [(Info, "StreamStateTracker initialized")] |}).

(** Truthiness of [expectedSize]: [undefined] and [0] are falsy. *)
Definition sizeKnown (o : option Z) : option Z :=
  match o with
  | Some n => if n =? 0 then None else Some n
  | None => None
  end.

Definition Qpositive (q : Q) : bool := negb (Qle_bool q 0).

(** [calculateEstimatedTime]; [now] is its own reading of the clock. *)
Definition calculateEstimatedTime (now : Z) (bytes : Z) (totalBytes : option Z)
  (start : Z) : option Q :=
  match sizeKnown totalBytes with
  | None => None
  | Some total =>
      if (total <=? 0) || (bytes <=? 0) then None
      else
        let elapsed := now - start in
        let remainingBytes := total - bytes in
        if (elapsed <=? 0) || (remainingBytes <=? 0) then Some 0%Q
        else
          let rate := (inject_Z bytes / (inject_Z elapsed / 1000))%Q in
          if Qpositive rate then Some (inject_Z remainingBytes / rate)%Q
          else None
  end.

Definition recordMetric (sid name : string) (value : Q)
  (m : gmap string (gmap string Q)) : gmap string (gmap string Q) :=
  let streamMetrics := match m !! sid with Some sm => sm | None => ∅ end in
  <[ sid := <[ name := value ]> streamMetrics ]> m.

(** [startStream]; [nowEta] is the clock reading taken inside
    [calculateEstimatedTime]. *)
Definition startStream (now nowEta : Z) (sid ctype : string)
  (expected : option Z) (tr : t) : Result unit * t :=
  let state :=
    {| id := sid; status := started; st_startTime := now;
       contentType := ctype; expectedSize := expected;
       bytesReceived := 0; chunksReceived := 0;
       endTime := None; duration := None; pauseTime := None;
       totalPauseDuration := None; st_error := None |} in
  let prog :=
    {| streamId := sid; startTime := now; lastUpdateTime := now;
       bytesTransferred := 0; chunksTransferred := 0;
       transferRate := 0%Q;
       estimatedTimeRemaining :=
         match sizeKnown expected with
         | Some _ => calculateEstimatedTime nowEta 0 expected now
         | None => None
         end;
       percentage := 0%Q |} in
  (Ok tt,
   {| logger := logger tr;
      activeStreams := <[ sid := state ]> (activeStreams tr);
      streamProgress := <[ sid := prog ]> (streamProgress tr);
      streamErrors := <[ sid := [] ]> (streamErrors tr);
      metrics := metrics tr;
      emitted := emitted tr ++ [(Info, "Stream started")] |}).

(** [updateStreamProgress]: [timeElapsed] is measured from
    [progress.startTime], [bytesDelta] from the previous update. *)
Definition updateStreamProgress (now nowEta : Z) (sid : string)
  (bytes chunks : Z) (tr : t) : Result unit * t :=
  match activeStreams tr !! sid, streamProgress tr !! sid with
  | Some state, Some prog =>
      let timeElapsed := now - startTime prog in
      let bytesDelta := bytes - bytesTransferred prog in
      let state' :=
        {| id := id state; status := progress;
           st_startTime := st_startTime state;
           contentType := contentType state;
           expectedSize := expectedSize state;
           bytesReceived := bytes; chunksReceived := chunks;
           endTime := endTime state; duration := duration state;
           pauseTime := pauseTime state;
           totalPauseDuration := totalPauseDuration state;
           st_error := st_error state |} in
      let rate :=
        if 0 <? timeElapsed
        then (inject_Z bytesDelta / (inject_Z timeElapsed / 1000))%Q
        else 0%Q in
      let prog' :=
        {| streamId := streamId prog; startTime := startTime prog;
           lastUpdateTime := now;
           bytesTransferred := bytes; chunksTransferred := chunks;
           transferRate := rate;
           estimatedTimeRemaining :=
             calculateEstimatedTime nowEta bytes (expectedSize state)
               (startTime prog);
           percentage :=
             match sizeKnown (expectedSize state) with
             | Some total => (inject_Z bytes / inject_Z total * 100)%Q
             | None => 0%Q
             end |} in
      (Ok tt,
       {| logger := logger tr;
          activeStreams := <[ sid := state' ]> (activeStreams tr);
          streamProgress := <[ sid := prog' ]> (streamProgress tr);
          streamErrors := streamErrors tr;
          metrics :=
            recordMetric sid "transfer_rate" rate
              (recordMetric sid "chunks_received" (inject_Z chunks)
                 (recordMetric sid "bytes_received" (inject_Z bytes)
                    (metrics tr)));
          emitted :=
            if Z.rem chunks 10 =? 0
            then emitted tr ++ [(Debug, "Stream progress update")]
            else emitted tr |})
  | _, _ => (Err (String.append "Stream not found: " sid), tr)
  end.

Definition getStreamState (sid : string) (tr : t)
  : Result (StreamState * StreamProgress) :=
  match activeStreams tr !! sid, streamProgress tr !! sid with
  | Some s, Some p => Ok (s, p)
  | _, _ => Err (String.append "Stream not found: " sid)
  end.

(** The rate the specification describes: bytes since the previous
    update over the seconds since the previous update. *)
Definition instantaneousRate (prevBytes prevTime bytes now : Z) : Q :=
  (inject_Z (bytes - prevBytes) / (inject_Z (now - prevTime) / 1000))%Q.

Definition withState (sid : string) (state : StreamState) (tr : t) : t :=
  {| logger := logger tr;
     activeStreams := <[ sid := state ]> (activeStreams tr);
     streamProgress := streamProgress tr; streamErrors := streamErrors tr;
     metrics := metrics tr; emitted := emitted tr |}.

Definition emit (l : LogLine) (tr : t) : t :=
  {| logger := logger tr; activeStreams := activeStreams tr;
     streamProgress := streamProgress tr; streamErrors := streamErrors tr;
     metrics := metrics tr; emitted := emitted tr ++ [l] |}.

(** [completeStream]: a [finalSize] of [0] is falsy and ignored. *)
Definition completeStream (now : Z) (sid : string) (finalSize : option Z)
  (tr : t) : Result unit * t :=
  match activeStreams tr !! sid, streamProgress tr !! sid with
  | Some state, Some prog =>
      let dur := now - startTime prog in
      let state' :=
        {| id := id state; status := completed;
           st_startTime := st_startTime state;
           contentType := contentType state;
           expectedSize :=
             match sizeKnown finalSize with
             | Some n => Some n
             | None => expectedSize state
             end;
           bytesReceived :=
             match sizeKnown finalSize with
             | Some n => n
             | None => bytesReceived state
             end;
           chunksReceived := chunksReceived state;
           endTime := Some now; duration := Some dur;
           pauseTime := pauseTime state;
           totalPauseDuration := totalPauseDuration state;
           st_error := st_error state |} in
      let prog' :=
        {| streamId := streamId prog; startTime := startTime prog;
           lastUpdateTime := now;
           bytesTransferred := bytesReceived state';
           chunksTransferred := chunksTransferred prog;
           transferRate := transferRate prog;
           estimatedTimeRemaining := Some 0%Q;
           percentage := 100%Q |} in
      (Ok tt,
       {| logger := logger tr;
          activeStreams := <[ sid := state' ]> (activeStreams tr);
          streamProgress := <[ sid := prog' ]> (streamProgress tr);
          streamErrors := streamErrors tr;
          metrics :=
            recordMetric sid "total_chunks" (inject_Z (chunksReceived state'))
              (recordMetric sid "final_size" (inject_Z (bytesReceived state'))
                 (recordMetric sid "duration" (inject_Z dur) (metrics tr)));
          emitted := emitted tr ++ [(Info, "Stream completed")] |})
  | _, _ => (Err (String.append "Stream not found: " sid), tr)
  end.

(** [handleStreamError]; an absent [context] is the empty record. *)
Definition handleStreamError (now : Z) (sid : string) (ename emessage : string)
  (context : list (string * JsValue)) (tr : t) : Result unit * t :=
  match activeStreams tr !! sid, streamProgress tr !! sid with
  | Some state, Some prog =>
      let dur := now - startTime prog in
      let streamError :=
        {| err_timestamp := now; err_name := ename;
           err_message := emessage; err_context := context |} in
      let state' :=
        {| id := id state; status := error;
           st_startTime := st_startTime state;
           contentType := contentType state;
           expectedSize := expectedSize state;
           bytesReceived := bytesReceived state;
           chunksReceived := chunksReceived state;
           endTime := Some now; duration := Some dur;
           pauseTime := pauseTime state;
           totalPauseDuration := totalPauseDuration state;
           st_error := Some streamError |} in
      let errors :=
        match streamErrors tr !! sid with
        | Some l => l
        | None => []
        end ++ [streamError] in
      (Ok tt,
       {| logger := logger tr;
          activeStreams := <[ sid := state' ]> (activeStreams tr);
          streamProgress := streamProgress tr;
          streamErrors := <[ sid := errors ]> (streamErrors tr);
          metrics :=
            recordMetric sid "error_duration" (inject_Z dur)
              (recordMetric sid "error_count"
                 (inject_Z (Z.of_nat (length errors))) (metrics tr));
          emitted := emitted tr ++ [(Error, "Stream error occurred")] |})
  | _, _ => (Err (String.append "Stream not found: " sid), tr)
  end.

Definition isProgress (s : Status) : bool :=
  match s with progress => true | _ => false end.

Definition isPaused (s : Status) : bool :=
  match s with paused => true | _ => false end.

(** [pauseStream]: looks at the state map only. *)
Definition pauseStream (now : Z) (sid : string) (tr : t) : Result unit * t :=
  match activeStreams tr !! sid with
  | None => (Err (String.append "Stream not found: " sid), tr)
  | Some state =>
      if isProgress (status state) then
        (Ok tt,
         emit (Info, "Stream paused")
           (withState sid
              {| id := id state; status := paused;
                 st_startTime := st_startTime state;
                 contentType := contentType state;
                 expectedSize := expectedSize state;
                 bytesReceived := bytesReceived state;
                 chunksReceived := chunksReceived state;
                 endTime := endTime state; duration := duration state;
                 pauseTime := Some now;
                 totalPauseDuration := totalPauseDuration state;
                 st_error := st_error state |} tr))
      else (Ok tt, tr)
  end.

(** [resumeStream]: needs the status [paused] and a truthy [pauseTime]. *)
Definition resumeStream (now : Z) (sid : string) (tr : t) : Result unit * t :=
  match activeStreams tr !! sid with
  | None => (Err (String.append "Stream not found: " sid), tr)
  | Some state =>
      match isPaused (status state), sizeKnown (pauseTime state) with
      | true, Some pausedAt =>
          let pauseDuration := now - pausedAt in
          (Ok tt,
           emit (Info, "Stream resumed")
             (withState sid
                {| id := id state; status := progress;
                   st_startTime := st_startTime state;
                   contentType := contentType state;
                   expectedSize := expectedSize state;
                   bytesReceived := bytesReceived state;
                   chunksReceived := chunksReceived state;
                   endTime := endTime state; duration := duration state;
                   pauseTime := None;
                   totalPauseDuration :=
                     Some (match sizeKnown (totalPauseDuration state) with
                           | Some d => d
                           | None => 0
                           end + pauseDuration);
                   st_error := st_error state |} tr))
      | _, _ => (Ok tt, tr)
      end
  end.

Definition getStreamErrors (sid : string) (tr : t) : list StreamError :=
  match streamErrors tr !! sid with
  | Some l => l
  | None => []
  end.

(** [cleanup]: one hour after its [endTime] a stream is dropped from
    all four maps. *)
Definition maxAge : Z := 60 * 60 * 1000.

Definition expired (now : Z) (state : StreamState) : bool :=
  match sizeKnown (endTime state) with
  | Some e => maxAge <? now - e
  | None => false
  end.

Definition expiredId (now : Z) (tr : t) (sid : string) : bool :=
  match activeStreams tr !! sid with
  | Some state => expired now state
  | None => false
  end.

Definition sweep {V} (now : Z) (tr : t) (m : gmap string V) : gmap string V :=
  filter (fun kv => expiredId now tr (fst kv) = false) m.

Definition cleanup (now : Z) (tr : t) : t :=
  {| logger := logger tr;
     activeStreams := sweep now tr (activeStreams tr);
     streamProgress := sweep now tr (streamProgress tr);
     streamErrors := sweep now tr (streamErrors tr);
     metrics := sweep now tr (metrics tr);
     emitted := emitted tr ++ [(Info, "StreamStateTracker cleaned up")] |}.

End StreamStateTracker.

(** ** RequestContextTracker ([tracking/RequestContextTracker.ts]) *)

Module RequestContextTracker.

Local Open Scope Z_scope.

(** The enum [RequestStatus] of [types/request-context.ts]: its members,
    and the read of a property of the enum object.  [CREATED] and
    [ACTIVE], which the tracker reads, are not among the members, so
    both reads give [undefined]. *)
Module RequestStatus.

Inductive t :=
| STARTED | ROUTING | PROCESSING | STREAMING
| COMPLETED | FAILED | TIMEOUT | CANCELLED.

#[global] Instance t_eq_dec : EqDecision t.
Proof. solve_decision. Defined.

Definition members : list (string * t) :=
  [("STARTED", STARTED); ("ROUTING", ROUTING); ("PROCESSING", PROCESSING);
   ("STREAMING", STREAMING); ("COMPLETED", COMPLETED); ("FAILED", FAILED);
   ("TIMEOUT", TIMEOUT); ("CANCELLED", CANCELLED)].

(** [RequestStatus.<name>]; [None] is [undefined]. *)
Definition prop (name : string) : option t := OrderedMap.get name members.

End RequestStatus.

Inductive StreamState := IDLE | STARTED | PROGRESS | STREAM_COMPLETED | ERROR | PAUSED.

Record TokenUsage := {
  promptTokens : Z;
  completionTokens : Z;
  totalTokens : Z
}.

Record ErrorInfo := {
  ei_name : string;
  ei_message : string;
  ei_stack : option string
}.

Record RequestContext := {
  requestId : string;
  sessionId : string;
  userId : option string;
  traceId : string;
  status : option RequestStatus.t;
  startTime : Z;
  endTime : option Z;
  duration : option Z;
  method : string;
  url : string;
  headers : list (string * string);
  statusCode : option Z;
  error : option ErrorInfo;
  streamState : StreamState;
  tokenUsage : TokenUsage;
  metadata : list (string * JsValue)
}.

(** [Partial<RequestContext>]: [None] is an absent key.  For a field
    that can hold [undefined], [Some None] is a key present with the
    value [undefined], which an object spread copies like any other
    value. *)
Record PartialContext := {
  u_sessionId : option string;
  u_userId : option (option string);
  u_traceId : option string;
  u_status : option (option RequestStatus.t);
  u_endTime : option (option Z);
  u_duration : option (option Z);
  u_method : option string;
  u_url : option string;
  u_headers : option (list (string * string));
  u_statusCode : option (option Z);
  u_error : option (option ErrorInfo);
  u_streamState : option StreamState;
  u_tokenUsage : option TokenUsage;
  u_metadata : option (list (string * JsValue))
}.

Definition noUpdates : PartialContext :=
  {| u_sessionId := None; u_userId := None; u_traceId := None;
     u_status := None; u_endTime := None; u_duration := None;
     u_method := None; u_url := None; u_headers := None;
     u_statusCode := None; u_error := None; u_streamState := None;
     u_tokenUsage := None; u_metadata := None |}.

Record RequestStatistics := {
  totalRequests : Z;
  activeRequests : Z;
  completedRequests : Z;
  failedRequests : Z;
  averageResponseTime : float;
  lastUpdated : Z
}.

(** The two identifiers drawn from the clock and [Math.random]. *)
Record IdGen := {
  generateSessionId : string;
  generateTraceId : string
}.

Record t := {
  logger : Pino.Logger;
  requestContexts : gmap string RequestContext;
  statistics : RequestStatistics;
  cleanupInterval : bool;
  emitted : list LogLine
}.

(** Field initialisers and constructor; [now] is the clock reading of
    the [statistics] initialiser. *)
Definition new (now : Z) (lg : Pino.Logger) : t :=
  {| logger := lg;
     requestContexts := ∅;
     statistics :=
       {| totalRequests := 0; activeRequests := 0; completedRequests := 0;
          failedRequests := 0; averageResponseTime := 0%float;
          lastUpdated := now |};
     cleanupInterval := false;
     emitted := [] |}.

Definition log (l : LogLine) (tr : t) : t :=
  {| logger := logger tr; requestContexts := requestContexts tr;
     statistics := statistics tr; cleanupInterval := cleanupInterval tr;
     emitted := emitted tr ++ [l] |}.

Definition initialize (tr : t) : Result unit * t :=
  (Ok tt,
   {| logger := logger tr; requestContexts := requestContexts tr;
      statistics := statistics tr; cleanupInterval := true;
      emitted := emitted tr ++ [(Info, "RequestContextTracker initialized")] |}).

Definition pick {A} (u : option A) (d : A) : A :=
  match u with Some v => v | None => d end.

(** [{ ...context, ...updates }]. *)
Definition spread (c : RequestContext) (u : PartialContext) : RequestContext :=
  {| requestId := requestId c;
     sessionId := pick (u_sessionId u) (sessionId c);
     userId := pick (u_userId u) (userId c);
     traceId := pick (u_traceId u) (traceId c);
     status := pick (u_status u) (status c);
     startTime := startTime c;
     endTime := pick (u_endTime u) (endTime c);
     duration := pick (u_duration u) (duration c);
     method := pick (u_method u) (method c);
     url := pick (u_url u) (url c);
     headers := pick (u_headers u) (headers c);
     statusCode := pick (u_statusCode u) (statusCode c);
     error := pick (u_error u) (error c);
     streamState := pick (u_streamState u) (streamState c);
     tokenUsage := pick (u_tokenUsage u) (tokenUsage c);
     metadata := pick (u_metadata u) (metadata c) |}.

Definition join {A} (u : option (option A)) : option A :=
  match u with Some v => v | None => None end.

(** [createContext]: the status is always what [RequestStatus.CREATED]
    reads; the new context is counted in [totalRequests] and
    [activeRequests]. *)
Definition createContext (now : Z) (g : IdGen) (rid : string)
  (context : PartialContext) (tr : t) : RequestContext * t :=
  let requestContext :=
    {| requestId := rid;
       sessionId := or_else (u_sessionId context) (generateSessionId g);
       userId := join (u_userId context);
       traceId := or_else (u_traceId context) (generateTraceId g);
       status := RequestStatus.prop "CREATED";
       startTime := now;
       endTime := None;
       duration := None;
       method := or_else (u_method context) "UNKNOWN";
       url := or_else (u_url context) "";
       headers := pick (u_headers context) [];
       statusCode := join (u_statusCode context);
       error := join (u_error context);
       streamState := pick (u_streamState context) IDLE;
       tokenUsage :=
         pick (u_tokenUsage context)
           {| promptTokens := 0; completionTokens := 0; totalTokens := 0 |};
       metadata := pick (u_metadata context) [] |} in
  let s := statistics tr in
  (requestContext,
   {| logger := logger tr;
      requestContexts := <[ rid := requestContext ]> (requestContexts tr);
      statistics :=
        {| totalRequests := totalRequests s + 1;
           activeRequests := activeRequests s + 1;
           completedRequests := completedRequests s;
           failedRequests := failedRequests s;
           averageResponseTime := averageResponseTime s;
           lastUpdated := now |};
      cleanupInterval := cleanupInterval tr;
      emitted := emitted tr ++ [(Debug, "Created request context")] |}).

Definition getContext (rid : string) (tr : t) : option RequestContext :=
  requestContexts tr !! rid.

Definition updateContext (rid : string) (updates : PartialContext) (tr : t)
  : Result unit * t :=
  match requestContexts tr !! rid with
  | None => (Err (String.append "Request context not found: " rid), tr)
  | Some context =>
      (Ok tt,
       {| logger := logger tr;
          requestContexts := <[ rid := spread context updates ]> (requestContexts tr);
          statistics := statistics tr;
          cleanupInterval := cleanupInterval tr;
          emitted := emitted tr ++ [(Debug, "Updated request context")] |})
  end.

Definition trackRequestStart (now : Z) (g : IdGen) (rid m u : string)
  (hdrs : option (list (string * string))) (tr : t) : t :=
  let tr' :=
    match getContext rid tr with
    | None =>
        snd (createContext now g rid
               {| u_sessionId := None; u_userId := None; u_traceId := None;
                  u_status := None; u_endTime := None; u_duration := None;
                  u_method := Some m; u_url := Some u; u_headers := hdrs;
                  u_statusCode := None; u_error := None;
                  u_streamState := None; u_tokenUsage := None;
                  u_metadata := None |} tr)
    | Some context =>
        snd (updateContext rid
               {| u_sessionId := None; u_userId := None; u_traceId := None;
                  u_status := Some (RequestStatus.prop "ACTIVE");
                  u_endTime := None;
                  u_duration := None;
                  u_method := Some m; u_url := Some u;
                  u_headers := Some (pick hdrs (headers context));
                  u_statusCode := None; u_error := None;
                  u_streamState := None; u_tokenUsage := None;
                  u_metadata := None |} tr)
    end in
  log (Info, "Request started") tr'.

Definition setStatistics (s : RequestStatistics) (tr : t) : t :=
  {| logger := logger tr; requestContexts := requestContexts tr;
     statistics := s; cleanupInterval := cleanupInterval tr;
     emitted := emitted tr |}.

(** [updateAverageResponseTime], run after the counters were bumped;
    the average is computed in doubles. *)
Definition updateAverageResponseTime (newDuration : Z) (s : RequestStatistics)
  : RequestStatistics :=
  let totalCompleted := completedRequests s + failedRequests s in
  {| totalRequests := totalRequests s;
     activeRequests := activeRequests s;
     completedRequests := completedRequests s;
     failedRequests := failedRequests s;
     averageResponseTime :=
       if totalCompleted =? 0 then toDouble newDuration
       else ((averageResponseTime s * toDouble (totalCompleted - 1)
              + toDouble newDuration) / toDouble totalCompleted)%float;
     lastUpdated := lastUpdated s |}.

Definition trackRequestEnd (now : Z) (rid : string) (code dur : Z)
  (responseSize : option Z) (tr : t) : t :=
  let updates :=
    {| u_sessionId := None; u_userId := None; u_traceId := None;
       u_status :=
         Some (if 400 <=? code then RequestStatus.prop "FAILED"
               else RequestStatus.prop "COMPLETED");
       u_endTime := Some (Some now);
       u_duration := Some (Some dur);
       u_method := None; u_url := None; u_headers := None;
       u_statusCode := Some (Some code);
       u_error := None; u_streamState := None; u_tokenUsage := None;
       u_metadata :=
         Some [("responseSize",
                match responseSize with Some n => JNum n | None => JUndefined end)] |} in
  match updateContext rid updates tr with
  | (Ok _, tr1) =>
      let s := statistics tr1 in
      let s1 :=
        {| totalRequests := totalRequests s;
           activeRequests := activeRequests s - 1;
           completedRequests :=
             if 400 <=? code then completedRequests s else completedRequests s + 1;
           failedRequests :=
             if 400 <=? code then failedRequests s + 1 else failedRequests s;
           averageResponseTime := averageResponseTime s;
           lastUpdated := lastUpdated s |} in
      log (Info, "Request completed")
        (setStatistics (updateAverageResponseTime dur s1) tr1)
  | (Err _, tr1) => tr1
  end.

Definition trackRequestError (now : Z) (rid : string) (e : ErrorInfo)
  (code : option Z) (tr : t) : t :=
  let dur :=
    match getContext rid tr with
    | Some context => now - startTime context
    | None => 0
    end in
  let updates :=
    {| u_sessionId := None; u_userId := None; u_traceId := None;
       u_status := Some (RequestStatus.prop "FAILED");
       u_endTime := Some (Some now);
       u_duration := Some (Some dur);
       u_method := None; u_url := None; u_headers := None;
       u_statusCode := Some code;
       u_error := Some (Some e);
       u_streamState := None; u_tokenUsage := None; u_metadata := None |} in
  match updateContext rid updates tr with
  | (Ok _, tr1) =>
      let s := statistics tr1 in
      log (Error, "Request failed")
        (setStatistics
           {| totalRequests := totalRequests s;
              activeRequests := activeRequests s - 1;
              completedRequests := completedRequests s;
              failedRequests := failedRequests s + 1;
              averageResponseTime := averageResponseTime s;
              lastUpdated := lastUpdated s |} tr1)
  | (Err _, tr1) => tr1
  end.

(** The test of [getActiveRequests] on one context:
    [context.status === RequestStatus.ACTIVE]. *)
Definition isActive (c : RequestContext) : bool :=
  bool_decide (status c = RequestStatus.prop "ACTIVE").

(** [trackStreamState]: the metadata is replaced by
    [{ streamMessage: message }]. *)
Definition trackStreamState (rid : string) (st : StreamState)
  (message : option string) (tr : t) : t :=
  let updates :=
    {| u_sessionId := None; u_userId := None; u_traceId := None;
       u_status := None; u_endTime := None; u_duration := None;
       u_method := None; u_url := None; u_headers := None;
       u_statusCode := None; u_error := None;
       u_streamState := Some st; u_tokenUsage := None;
       u_metadata :=
         Some [("streamMessage",
                match message with Some s => JStr s | None => JUndefined end)] |} in
  match updateContext rid updates tr with
  | (Ok _, tr1) => log (Debug, "Stream state updated") tr1
  | (Err _, tr1) => tr1
  end.

(** [Partial<TokenUsage>]. *)
Record PartialTokenUsage := {
  d_promptTokens : option Z;
  d_completionTokens : option Z;
  d_totalTokens : option Z
}.

(** [x || 0] on a possibly absent number. *)
Definition orZero (o : option Z) : Z :=
  match o with Some n => n | None => 0 end.

Definition updateTokenUsage (rid : string) (delta : PartialTokenUsage) (tr : t)
  : Result unit * t :=
  match getContext rid tr with
  | None => (Err (String.append "Request context not found: " rid), tr)
  | Some context =>
      let updatedTokenUsage :=
        {| promptTokens :=
             promptTokens (tokenUsage context) + orZero (d_promptTokens delta);
           completionTokens :=
             completionTokens (tokenUsage context)
             + orZero (d_completionTokens delta);
           totalTokens :=
             totalTokens (tokenUsage context) + orZero (d_totalTokens delta) |} in
      updateContext rid
        {| u_sessionId := None; u_userId := None; u_traceId := None;
           u_status := None; u_endTime := None; u_duration := None;
           u_method := None; u_url := None; u_headers := None;
           u_statusCode := None; u_error := None; u_streamState := None;
           u_tokenUsage := Some updatedTokenUsage; u_metadata := None |} tr
  end.

Definition getStatistics (tr : t) : RequestStatistics := statistics tr.

(** [maxAge]: thirty minutes. *)
Definition maxAge : Z := 30 * 60 * 1000.

(** The test of [cleanupOldContexts]; a [startTime] of [0] is falsy. *)
Definition stale (now : Z) (c : RequestContext) : bool :=
  negb (startTime c =? 0) && (startTime c <? now - maxAge).

(** [cleanupOldContexts], the periodic sweep; the statistics are not
    adjusted. *)
Definition cleanupOldContexts (now : Z) (tr : t) : t :=
  let kept := filter (fun kv => stale now (snd kv) = false) (requestContexts tr) in
  let cleanedCount := (size (requestContexts tr) - size kept)%nat in
  {| logger := logger tr;
     requestContexts := kept;
     statistics := statistics tr;
     cleanupInterval := cleanupInterval tr;
     emitted :=
       if (0 <? cleanedCount)%nat
       then emitted tr ++ [(Debug, "Cleaned up old request contexts")]
       else emitted tr |}.

(** [cleanup]: stops the timer and clears the contexts. *)
Definition cleanup (tr : t) : t :=
  {| logger := logger tr;
     requestContexts := ∅;
     statistics := statistics tr;
     cleanupInterval := false;
     emitted := emitted tr ++ [(Info, "RequestContextTracker cleaned up")] |}.

(** One call on the tracker with the clock reading it takes, and a run
    of such calls. *)
Inductive Call :=
| CallCreateContext (now : Z) (g : IdGen) (rid : string) (context : PartialContext)
| CallUpdateContext (rid : string) (updates : PartialContext)
| CallTrackRequestStart (now : Z) (g : IdGen) (rid m u : string)
    (hdrs : option (list (string * string)))
| CallTrackRequestEnd (now : Z) (rid : string) (code dur : Z)
    (responseSize : option Z)
| CallTrackRequestError (now : Z) (rid : string) (e : ErrorInfo)
    (code : option Z)
| CallTrackStreamState (rid : string) (st : StreamState) (message : option string)
| CallUpdateTokenUsage (rid : string) (delta : PartialTokenUsage)
| CallCleanupOldContexts (now : Z)
| CallCleanup.

Definition call (tr : t) (c : Call) : t :=
  match c with
  | CallCreateContext now g rid context => snd (createContext now g rid context tr)
  | CallUpdateContext rid updates => snd (updateContext rid updates tr)
  | CallTrackRequestStart now g rid m u hdrs =>
      trackRequestStart now g rid m u hdrs tr
  | CallTrackRequestEnd now rid code dur responseSize =>
      trackRequestEnd now rid code dur responseSize tr
  | CallTrackRequestError now rid e code => trackRequestError now rid e code tr
  | CallTrackStreamState rid st message => trackStreamState rid st message tr
  | CallUpdateTokenUsage rid delta => snd (updateTokenUsage rid delta tr)
  | CallCleanupOldContexts now => cleanupOldContexts now tr
  | CallCleanup => cleanup tr
  end.

Definition calls (cs : list Call) (tr : t) : t := fold_left call cs tr.

(** The three outcome counters add up to the number of contexts ever
    created. *)
Definition balanced (s : RequestStatistics) : Prop :=
  totalRequests s
  = activeRequests s + completedRequests s + failedRequests s.

End RequestContextTracker.

(** ** ErrorLogger ([enhanced/ErrorLogger.ts]) *)

Module ErrorLogger.

Local Open Scope Z_scope.

(** The fields of a JavaScript [Error] that [logError] stores. *)
Record JsError := {
  name : string;
  message : string;
  stack : option string
}.

Record HistoryEntry := {
  h_timestamp : Z;
  errorName : string;
  errorMessage : string;
  h_context : list (string * JsValue)
}.

Record t := {
  logger : Pino.Logger;
  errorCounts : list (string * Z);
  errorHistory : list HistoryEntry;
  emitted : list LogLine
}.

Definition maxHistorySize : nat := 1000.

Definition new (lg : Pino.Logger) : t :=
  {| logger := lg; errorCounts := []; errorHistory := []; emitted := [] |}.

Definition initialize (s : t) : Result unit * t :=
  (Ok tt,
   {| logger := logger s; errorCounts := errorCounts s;
      errorHistory := errorHistory s;
      emitted := emitted s ++ [(Info, "ErrorLogger initialized")] |}).

(** [this.errorCounts.get(errorName) || 0], plus one. *)
Definition updateErrorCount (errorName : string) (counts : list (string * Z))
  : list (string * Z) :=
  let currentCount :=
    match OrderedMap.get errorName counts with
    | Some c => c
    | None => 0
    end in
  OrderedMap.set errorName (currentCount + 1) counts.

Definition addToErrorHistory (e : HistoryEntry) (history : list HistoryEntry)
  : list HistoryEntry :=
  let pushed := history ++ [e] in
  if (maxHistorySize <? length pushed)%nat
  then sliceLast maxHistorySize pushed
  else pushed.

(** [String.prototype.includes]. *)
Fixpoint includes (sub s : string) : bool :=
  String.prefix sub s
  || match s with
     | EmptyString => false
     | String _ r => includes sub r
     end.

Definition handleSpecialErrorTypes (e : JsError) : list LogLine :=
  (if String.eqb (name e) "ECONNREFUSED" || String.eqb (name e) "ENOTFOUND"
   then [(Warn, "Network connectivity issue detected")] else [])
  ++ (if String.eqb (name e) "EACCES" || String.eqb (name e) "EPERM"
      then [(Warn, "Permission issue detected")] else [])
  ++ (if String.eqb (name e) "OutOfMemoryError"
         || includes "out of memory" (message e)
      then [(Error, "Memory issue detected")] else [])
  ++ (if String.eqb (name e) "TimeoutError" || includes "timeout" (message e)
      then [(Warn, "Timeout issue detected")] else []).

Definition logError (now : Z) (e : JsError) (context : list (string * JsValue))
  (s : t) : t :=
  {| logger := logger s;
     errorCounts := updateErrorCount (name e) (errorCounts s);
     errorHistory :=
       addToErrorHistory
         {| h_timestamp := now; errorName := name e;
            errorMessage := message e; h_context := context |}
         (errorHistory s);
     emitted :=
       emitted s
       ++ [(Error,
            String.append "Enhanced error: "
              (String.append (name e) (String.append " - " (message e))))]
       ++ handleSpecialErrorTypes e |}.

(** [sort((a, b) => b.count - a.count)]: stable, descending in the count. *)
Fixpoint insertByCount (x : string * Z) (l : list (string * Z))
  : list (string * Z) :=
  match l with
  | [] => [x]
  | h :: r => if snd x <? snd h then h :: insertByCount x r else x :: l
  end.

Definition sortByCount (l : list (string * Z)) : list (string * Z) :=
  fold_right insertByCount [] l.

Record ErrorStatistics := {
  totalErrors : Z;
  stat_errorCounts : list (string * Z);
  recentErrors : list (Z * string * string);
  topErrors : list (string * Z)
}.

Definition getErrorStatistics (s : t) : ErrorStatistics :=
  {| totalErrors := Z.of_nat (length (errorHistory s));
     stat_errorCounts := errorCounts s;
     recentErrors :=
       map (fun h => (h_timestamp h, errorName h, errorMessage h))
         (sliceLast 50 (errorHistory s));
     topErrors := take 10 (sortByCount (errorCounts s)) |}.

(** One recorded call of [logError]: clock reading, error, context. *)
Definition Call : Type := Z * JsError * list (string * JsValue).

Definition entryOf (c : Call) : HistoryEntry :=
  let '(now, e, ctx) := c in
  {| h_timestamp := now; errorName := name e;
     errorMessage := message e; h_context := ctx |}.

Definition logErrors (calls : list Call) (s : t) : t :=
  fold_left (fun acc c => let '(now, e, ctx) := c in logError now e ctx acc)
    calls s.

(** The total of the values of the name-to-count map. *)
Definition countTotal (counts : list (string * Z)) : Z :=
  fold_right (fun kv acc => snd kv + acc) 0 counts.

(** [Array.prototype.slice(start)] for an integer [start]: a negative
    [start] counts from the end, and [-0] is [0]. *)
Definition sliceFrom {A} (start : Z) (l : list A) : list A :=
  if (start <? 0)%Z
  then drop (Z.to_nat (Z.max (Z.of_nat (length l) + start) 0)) l
  else drop (Z.to_nat start) l.

(** [getErrorHistory(limit, errorName)]: an empty [errorName] is falsy
    and does not filter. *)
Definition getErrorHistory (limit : Z) (errorName_ : option string) (s : t)
  : list HistoryEntry :=
  let history :=
    match errorName_ with
    | Some n =>
        if truthy n
        then List.filter (fun h => String.eqb (errorName h) n) (errorHistory s)
        else errorHistory s
    | None => errorHistory s
    end in
  sliceFrom (- limit) history.

(** [cleanup]: both collections are emptied, nothing is logged. *)
Definition cleanup (s : t) : t :=
  {| logger := logger s; errorCounts := []; errorHistory := [];
     emitted := emitted s |}.

(** How many of the calls carry an error of the given name. *)
Definition callsNamed (n : string) (calls : list Call) : Z :=
  Z.of_nat (length (List.filter (fun c => String.eqb (name (snd (fst c))) n) calls)).

(** The order of [topErrors]: larger counts first. *)
Definition byCountDesc (a b : string * Z) : Prop := (snd b <= snd a)%Z.

End ErrorLogger.

(** ** LogConfigManager, as [LogManager] uses it

    [LogManager] constructs a [LogConfigManager] and calls its
    [initialize], [getConfig] and [updateConfig]; only the tests of that
    class are in the source tree. *)

Module LogConfigManager.

(** Modelled from the spec: the state of the missing class, the
    configuration currently in effect (the spec's MergedConfig). *)
Record t := { config : LogConfig }.

(** Modelled from the spec: the canonical ordered levels
    trace < debug < info < warn < error < fatal < silent of the missing
    [LogConfigManager] validation. *)
Definition canonicalLevels : list string :=
  ["trace"; "debug"; "info"; "warn"; "error"; "fatal"; "silent"].

(** Modelled from the spec: membership in the canonical levels. *)
Definition isCanonicalLevel (l : string) : bool :=
  existsb (String.eqb l) canonicalLevels.

(** Modelled from the spec: the missing per-stream validation, "any
    stream of kind file must declare a path; any stream of kind network
    must declare an endpoint". *)
Definition validStream (s : StreamEntry) : bool :=
  (if String.eqb (se_type s) "file" then truthy_opt (se_path s) else true)
  && (if String.eqb (se_type s) "network" then truthy_opt (se_endpoint s) else true).

(** Modelled from the spec: "streamDescriptors names are unique". *)
Fixpoint uniqueNames (names : list string) : bool :=
  match names with
  | [] => true
  | n :: r => negb (existsb (String.eqb n) r) && uniqueNames r
  end.

(** Modelled from the spec: the missing [LogConfigManager] validation,
    which rejects a bad level, a file stream without a path, a network
    stream without an endpoint and duplicate stream names. *)
Definition validate (c : LogConfig) : bool :=
  isCanonicalLevel (level c)
  && forallb validStream (streams c)
  && uniqueNames (map se_name (streams c)).

(** Modelled from the spec: the missing default configuration, with the
    single synthetic console descriptor at [info] severity. *)
Definition defaultConfig : LogConfig :=
  {| level := "info";
     timestamp := true;
     serviceName := "claude-code-router";
     version := "1.0.0";
     environment := "development";
     streams := [consoleEntry "default-console" "info"] |}.

(** Modelled from the spec: a field of the fragment, when defined,
    replaces the current one. *)
Definition pick {A} (u : option A) (d : A) : A :=
  match u with Some v => v | None => d end.

(** Modelled from the spec: how the missing [updateConfig] lays a
    partial configuration over the current one; fields the fragment does
    not define keep their value. *)
Definition applyPartial (c : LogConfig) (p : PartialLogConfig) : LogConfig :=
  {| level := pick (p_level p) (level c);
     timestamp := pick (p_timestamp p) (timestamp c);
     serviceName := pick (p_serviceName p) (serviceName c);
     version := pick (p_version p) (version c);
     environment := pick (p_environment p) (environment c);
     streams := pick (p_streams p) (streams c) |}.

(** Modelled from the spec: the missing constructor
    [new LogConfigManager(config?)]. *)
Definition new (p : option PartialLogConfig) : t :=
  {| config := match p with
               | Some f => applyPartial defaultConfig f
               | None => defaultConfig
               end |}.

(** Modelled from the spec: the missing [getConfig], the configuration
    in effect. *)
Definition getConfig (cm : t) : LogConfig := config cm.

(** Modelled from the spec: the missing [LogConfigManager.initialize];
    a configuration that fails validation is surfaced to the caller of
    [initialize]. *)
Definition initialize (cm : t) : Result unit * t :=
  if validate (config cm) then (Ok tt, cm)
  else (Err "Configuration validation failed", cm).

(** Modelled from the spec: the missing [LogConfigManager.updateConfig];
    "validation failure returns an error result and MergedConfig is not
    replaced". *)
Definition updateConfig (p : PartialLogConfig) (cm : t) : Result unit * t :=
  let candidate := applyPartial (config cm) p in
  if validate candidate then (Ok tt, {| config := candidate |})
  else (Err "Configuration update failed", cm).

End LogConfigManager.

(** ** LogManager ([LogManager.ts]) *)

Module LogManager.

Record t := {
  configManager : LogConfigManager.t;
  streamManager : StreamManager.t;
  requestTracker : option RequestContextTracker.t;
  streamTracker : option StreamStateTracker.t;
  errorLogger : option ErrorLogger.t;
  logger : option Pino.Logger;
  initialized : bool
}.

Definition new (c : option PartialLogConfig) : t :=
  let cm := LogConfigManager.new c in
  {| configManager := cm;
     streamManager := StreamManager.new (LogConfigManager.getConfig cm);
     requestTracker := None;
     streamTracker := None;
     errorLogger := None;
     logger := None;
     initialized := false |}.

(** [initialize]; [now] is the clock reading taken when the request
    tracker's statistics are built.  A stage that fails returns at once
    and keeps what the earlier stages assigned. *)
Definition initialize (h : StreamManager.Host) (now : Z) (m : t) : Result unit * t :=
  if initialized m then (Ok tt, m)
  else
    match LogConfigManager.initialize (configManager m) with
    | (Err e, cm) =>
        (Err e,
         {| configManager := cm; streamManager := streamManager m;
            requestTracker := requestTracker m;
            streamTracker := streamTracker m;
            errorLogger := errorLogger m; logger := logger m;
            initialized := false |})
    | (Ok _, cm) =>
        match StreamManager.initialize h (streamManager m) with
        | (Err e, sm) =>
            (Err e,
             {| configManager := cm; streamManager := sm;
                requestTracker := requestTracker m;
                streamTracker := streamTracker m;
                errorLogger := errorLogger m; logger := logger m;
                initialized := false |})
        | (Ok _, sm) =>
            let lg :=
              Pino.pino (LogConfigManager.getConfig cm)
                (StreamManager.getMultiStreams sm) in
            match RequestContextTracker.initialize
                    (RequestContextTracker.new now lg) with
            | (Err e, rt) =>
                (Err e,
                 {| configManager := cm; streamManager := sm;
                    requestTracker := Some rt;
                    streamTracker := streamTracker m;
                    errorLogger := errorLogger m; logger := Some lg;
                    initialized := false |})
            | (Ok _, rt) =>
                match StreamStateTracker.initialize
                        (StreamStateTracker.new lg) with
                | (Err e, st) =>
                    (Err e,
                     {| configManager := cm; streamManager := sm;
                        requestTracker := Some rt;
                        streamTracker := Some st;
                        errorLogger := errorLogger m; logger := Some lg;
                        initialized := false |})
                | (Ok _, st) =>
                    match ErrorLogger.initialize (ErrorLogger.new lg) with
                    | (Err e, el) =>
                        (Err e,
                         {| configManager := cm; streamManager := sm;
                            requestTracker := Some rt;
                            streamTracker := Some st;
                            errorLogger := Some el; logger := Some lg;
                            initialized := false |})
                    | (Ok _, el) =>
                        (Ok tt,
                         {| configManager := cm; streamManager := sm;
                            requestTracker := Some rt;
                            streamTracker := Some st;
                            errorLogger := Some el; logger := Some lg;
                            initialized := true |})
                    end
                end
            end
        end
    end.

(** [updateConfig]: the configuration manager goes first; only when it
    accepts the fragment are the streams torn down and rebuilt and the
    logger replaced.  The trackers are not touched. *)
Definition updateConfig (h : StreamManager.Host) (newConfig : PartialLogConfig)
  (m : t) : Result unit * t :=
  match LogConfigManager.updateConfig newConfig (configManager m) with
  | (Err e, cm) =>
      (Err e,
       {| configManager := cm; streamManager := streamManager m;
          requestTracker := requestTracker m;
          streamTracker := streamTracker m;
          errorLogger := errorLogger m; logger := logger m;
          initialized := initialized m |})
  | (Ok _, cm) =>
      let sm1 :=
        StreamManager.updateConfig (LogConfigManager.getConfig cm)
          (streamManager m) in
      let sm2 := StreamManager.cleanup sm1 in
      match StreamManager.initialize h sm2 with
      | (Err e, sm3) =>
          (Err e,
           {| configManager := cm; streamManager := sm3;
              requestTracker := requestTracker m;
              streamTracker := streamTracker m;
              errorLogger := errorLogger m; logger := logger m;
              initialized := initialized m |})
      | (Ok _, sm3) =>
          (Ok tt,
           {| configManager := cm; streamManager := sm3;
              requestTracker := requestTracker m;
              streamTracker := streamTracker m;
              errorLogger := errorLogger m;
              logger :=
                Some (Pino.pino (LogConfigManager.getConfig cm)
                        (StreamManager.getMultiStreams sm3));
              initialized := initialized m |})
      end
  end.

(** [cleanup]: the streams are torn down, the trackers are cleaned and
    dropped, and the manager is back to "not initialized".  [now] is the
    clock reading of the stream tracker's sweep; the trackers' own last
    log lines leave with the trackers. *)
Definition cleanup (now : Z) (m : t) : Result unit * t :=
  let rt := option_map RequestContextTracker.cleanup (requestTracker m) in
  let st := option_map (StreamStateTracker.cleanup now) (streamTracker m) in
  let el := option_map ErrorLogger.cleanup (errorLogger m) in
  (Ok tt,
   {| configManager := configManager m;
      streamManager := StreamManager.cleanup (streamManager m);
      requestTracker := None;
      streamTracker := None;
      errorLogger := None;
      logger := None;
      initialized := false |}).

End LogManager.

(** ** Sample inputs used by the evaluations below *)

Module Samples.

(** [LOG_LEVEL=error], nothing else set. *)
Definition envError : ConfigFileIntegration.ProcessEnv :=
  {| ConfigFileIntegration.LOG_LEVEL := Some "error";
     ConfigFileIntegration.LOG_TIMESTAMP := None;
     ConfigFileIntegration.LOG_SERVICE_NAME := None;
     ConfigFileIntegration.LOG_VERSION := None;
     ConfigFileIntegration.NODE_ENV := None;
     ConfigFileIntegration.LOG_STREAMS := None |}.

(** A configuration with the single stream
    [{ name: 'default-console', type: 'console', level: 'info' }]. *)
Definition oneConsole : LogConfig :=
  {| level := "info";
     timestamp := true;
     serviceName := "claude-code-router";
     version := "1.0.0";
     environment := "development";
     streams := [consoleEntry "default-console" "info"] |}.

(** The sources of one resolution pass with [LOG_LEVEL=error], no
    configuration file and no preset, over a default configuration whose
    level is ["info"]; and what merging them gives. *)
Definition sources1 : list ConfigFileIntegration.ConfigSource :=
  ConfigFileIntegration.collectConfigSources envError 0 oneConsole None None.
Definition merged1 : ConfigFileIntegration.MergeState :=
  ConfigFileIntegration.mergeConfigs envError sources1.

(** A host on which every directory exists; it answers alike for every
    directory, so [dirname] is left as the identity on it. *)
Definition anyHost : StreamManager.Host :=
  {| StreamManager.dirname := fun p => p;
     StreamManager.existsSync := fun _ => true;
     StreamManager.mkdirSync := fun _ => true |}.

(** The registry after [new StreamManager(oneConsole)] and [initialize]. *)
Definition registry1 : StreamManager.t :=
  snd (StreamManager.initialize anyHost (StreamManager.new oneConsole)).

(** A descriptor that reuses the registered name. *)
Definition errorConsole : StreamEntry := consoleEntry "default-console" "error".

Definition logger0 : Pino.Logger := Pino.pino oneConsole [].

Definition ids0 : RequestContextTracker.IdGen :=
  {| RequestContextTracker.generateSessionId := "session_5_k3j2h1g0f";
     RequestContextTracker.generateTraceId := "trace_5_a1b2c3d4e" |}.

(** A stream started at 0 ms, then two updates one second apart, each
    delivering 1000 more bytes. *)
Definition progress0 : StreamStateTracker.t :=
  snd (StreamStateTracker.startStream 0 0 "s1" "text/plain" None
         (StreamStateTracker.new logger0)).
Definition progress1 : StreamStateTracker.t :=
  snd (StreamStateTracker.updateStreamProgress 1000 1000 "s1" 1000 1 progress0).
Definition progress2 : StreamStateTracker.t :=
  snd (StreamStateTracker.updateStreamProgress 2000 2000 "s1" 2000 2 progress1).

Definition requests0 : RequestContextTracker.t :=
  RequestContextTracker.new 0 logger0.
Definition requests1 : RequestContextTracker.t :=
  RequestContextTracker.trackRequestStart 5 ids0 "r1" "GET" "/a" None requests0.
Definition requests2 : RequestContextTracker.t :=
  RequestContextTracker.trackRequestStart 6 ids0 "r1" "GET" "/a" None requests1.

Definition typeError : ErrorLogger.JsError :=
  {| ErrorLogger.name := "TypeError";
     ErrorLogger.message := "x is not a function";
     ErrorLogger.stack := None |}.

Definition rangeError : ErrorLogger.JsError :=
  {| ErrorLogger.name := "RangeError";
     ErrorLogger.message := "index out of range";
     ErrorLogger.stack := None |}.

(** 1001 calls of [logError]: one [RangeError] then a thousand
    [TypeError]s. *)
Definition calls1001 : list ErrorLogger.Call :=
  (0%Z, rangeError, []) :: repeat (1%Z, typeError, []) 1000.

(** 1500 calls of [logError]. *)
Definition calls1500 : list ErrorLogger.Call :=
  repeat (2%Z, typeError, []) 1500.

(** A manager that went through a successful [initialize]. *)
Definition manager1 : LogManager.t :=
  snd (LogManager.initialize anyHost 0 (LogManager.new None)).

Definition badLevel : PartialLogConfig :=
  {| p_level := Some "invalid"; p_timestamp := None; p_serviceName := None;
     p_version := None; p_environment := None; p_streams := None |}.

(** A registry with a second stream added by hand, one that the
    configuration does not list. *)
Definition registry2 : StreamManager.t :=
  snd (StreamManager.addStream anyHost (consoleEntry "audit" "warn") registry1).

(** A change of type that no stream class supports. *)
Definition toNetwork : PartialStreamEntry :=
  {| q_name := None; q_type := Some "network"; q_level := None;
     q_path := None; q_filePath := None; q_rotation := None;
     q_autoEnd := None; q_stderr := None; q_endpoint := None |}.

(** A file stream with rotation, [autoEnd] left to its default, and the
    registry after adding it. *)
Definition rollingEntry : StreamEntry :=
  {| se_name := "app"; se_type := "file"; se_level := "info";
     se_path := Some "./logs/app.log"; se_filePath := None;
     se_rotation := Some {| rot_size := None; rot_interval := None |};
     se_autoEnd := None; se_stderr := None; se_endpoint := None |}.
Definition rollingHandle : StreamManager.MultiStreamRes :=
  {| StreamManager.stream :=
       StreamManager.RollPromise "./logs/app.log" "10M" "1d";
     StreamManager.ms_level := "info";
     StreamManager.autoEnd := true |}.
Definition registry3 : StreamManager.t :=
  snd (StreamManager.addStream anyHost rollingEntry registry1).

(** A configuration that lists the rotation stream beside the console,
    and a manager initialised with it. *)
Definition consoleAndRolling : LogConfig :=
  {| level := "info";
     timestamp := true;
     serviceName := "claude-code-router";
     version := "1.0.0";
     environment := "development";
     streams := [consoleEntry "default-console" "info"; rollingEntry] |}.
Definition registry4 : StreamManager.t :=
  snd (StreamManager.initialize anyHost (StreamManager.new consoleAndRolling)).

(** A stream of 1000 expected bytes, started at 5 ms and half way
    through at 1005 ms. *)
Definition sized0 : StreamStateTracker.t :=
  snd (StreamStateTracker.startStream 5 5 "s2" "text/plain" (Some 1000%Z)
         (StreamStateTracker.new logger0)).
Definition sized1 : StreamStateTracker.t :=
  snd (StreamStateTracker.updateStreamProgress 1005 1005 "s2" 500 1 sized0).
Definition sized2 : StreamStateTracker.t :=
  snd (StreamStateTracker.updateStreamProgress 2005 2005 "s2" 800 2 sized1).
Definition sizedDone : StreamStateTracker.t :=
  snd (StreamStateTracker.completeStream 3005 "s2" None sized2).
Definition sizedPaused : StreamStateTracker.t :=
  snd (StreamStateTracker.pauseStream 1500 "s2" sized1).

(** One request that ended with status 200 after 100 ms. *)
Definition requestsEnded : RequestContextTracker.t :=
  RequestContextTracker.trackRequestEnd 105 "r1" 200 100 (Some 2048%Z) requests1.

(** Three recorded errors. *)
Definition threeErrors : ErrorLogger.t :=
  ErrorLogger.logErrors
    [(1%Z, typeError, []); (2%Z, rangeError, []); (3%Z, typeError, [])]
    (ErrorLogger.new logger0).

(** A default configuration that declares no stream. *)
Definition noStreams : LogConfig :=
  {| level := "info";
     timestamp := true;
     serviceName := "claude-code-router";
     version := "1.0.0";
     environment := "development";
     streams := [] |}.

(** A configuration-file source and a preset source that both declare a
    stream named ["x"]. *)
Definition fileX : ConfigFileIntegration.ConfigSource :=
  ConfigFileIntegration.mkSource ConfigFileIntegration.config_file_src None
    {| p_level := None; p_timestamp := None; p_serviceName := None;
       p_version := None; p_environment := None;
       p_streams := Some [consoleEntry "x" "info"] |} 0.
Definition presetXY : ConfigFileIntegration.ConfigSource :=
  ConfigFileIntegration.mkSource ConfigFileIntegration.preset_src (Some "prod")
    {| p_level := None; p_timestamp := None; p_serviceName := None;
       p_version := None; p_environment := None;
       p_streams := Some [fileEntry "x" "error" "/tmp/x.log";
                          consoleEntry "y" "warn"] |} 0.

Definition toDebug : PartialLogConfig :=
  {| p_level := Some "debug"; p_timestamp := None; p_serviceName := None;
     p_version := None; p_environment := None; p_streams := None |}.

End Samples.

(** * Properties *)

(** ** Ordered maps *)

Section OrderedMapFacts.
Context {V : Type}.
Implicit Types (m : list (string * V)) (k : string) (v : V).

Lemma get_set_eq k v m : OrderedMap.get k (OrderedMap.set k v m) = Some v.
Proof.
  induction m as [|[k' v'] r IH]; simpl.
  - by rewrite String.eqb_refl.
  - destruct (String.eqb k k') eqn:E; simpl.
    + by rewrite String.eqb_refl.
    + by rewrite E.
Qed.

Lemma get_set_ne k k' v m :
  k' ≠ k → OrderedMap.get k' (OrderedMap.set k v m) = OrderedMap.get k' m.
Proof.
  intros Hne. induction m as [|[k0 v0] r IH]; simpl.
  - apply String.eqb_neq in Hne. by rewrite Hne.
  - destruct (String.eqb k k0) eqn:E; simpl.
    + apply String.eqb_eq in E. subst k0.
      apply String.eqb_neq in Hne. by rewrite Hne.
    + by rewrite IH.
Qed.

Lemma keys_set_present k v m old :
  OrderedMap.get k m = Some old →
  OrderedMap.keys (OrderedMap.set k v m) = OrderedMap.keys m.
Proof.
  induction m as [|[k0 v0] r IH]; simpl; [done|].
  destruct (String.eqb k k0) eqn:E; simpl.
  - intros _. apply String.eqb_eq in E. by subst.
  - intros H. unfold OrderedMap.keys in *. simpl. f_equal. by apply IH.
Qed.

End OrderedMapFacts.

(** ** Configuration resolution *)

Section ConfigResolutionFacts.
Import ConfigFileIntegration.

Lemma mergeString_level field t get set v st :
  (∀ c s, level (set c s) = level c) →
  level (mergedConfig (mergeString field t get set v st))
  = level (mergedConfig st).
Proof.
  intros Hset. unfold mergeString.
  destruct v as [s|]; [|done].
  destruct (truthy s && negb (String.eqb s (get (mergedConfig st)))); simpl; auto.
Qed.

Lemma mergeTimestamp_level t v st :
  level (mergedConfig (mergeTimestamp t v st)) = level (mergedConfig st).
Proof.
  unfold mergeTimestamp. destruct v as [b|]; [|done].
  by destruct (negb (Bool.eqb b (timestamp (mergedConfig st)))).
Qed.

Lemma mergeOneStream_level t existing st s :
  level (mergedConfig (mergeOneStream t existing st s)) = level (mergedConfig st).
Proof. unfold mergeOneStream. by destruct (hasName existing (se_name s)). Qed.

Lemma mergeStreams_level t v st :
  level (mergedConfig (mergeStreams t v st)) = level (mergedConfig st).
Proof.
  unfold mergeStreams. destruct v as [[|s rest]|]; try done.
  destruct (streams (mergedConfig st)) as [|s0 r0]; [done|].
  generalize (map se_name (s0 :: r0)) as existing. intros existing.
  generalize (s :: rest) as l. intros l. revert st.
  induction l as [|x l IH]; intros st; simpl; [done|].
  by rewrite IH, mergeOneStream_level.
Qed.

(** A source that defines a non-empty [level] leaves exactly that level
    in the configuration under construction. *)
Lemma mergeSource_level st source v :
  p_level (src_config source) = Some v →
  truthy v = true →
  level (mergedConfig (mergeSource st source)) = v.
Proof.
  intros Hv Ht. unfold mergeSource.
  rewrite mergeStreams_level.
  rewrite !mergeString_level by done.
  rewrite mergeTimestamp_level.
  rewrite Hv. unfold mergeString. rewrite Ht. simpl.
  destruct (String.eqb v (level (mergedConfig st))) eqn:E; simpl; [|done].
  apply String.eqb_eq in E. by rewrite E.
Qed.

Lemma mergeConfigs_snoc pe l d :
  mergeConfigs pe (l ++ [d]) = mergeSource (mergeConfigs pe l) d.
Proof. unfold mergeConfigs. by rewrite fold_left_app. Qed.

(** After sorting, the default source is processed last. *)
Lemma collectConfigSources_default_last pe now d preset file :
  ∃ front,
    collectConfigSources pe now d preset file
    = front ++ [mkSource default_src None (toPartial d) now].
Proof.
  unfold collectConfigSources, sortByPriority.
  destruct preset as [[n e]|], file as [f|]; simpl.
  - by eexists [_; _; _].
  - by eexists [_; _].
  - by eexists [_; _].
  - by eexists [_].
Qed.

(** What one resolution pass computes for [level]: the default
    configuration's level, whatever the environment, the configuration
    file or the preset say. *)
Lemma resolve_level_is_default_level pe now d preset file :
  truthy (level d) = true →
  level (mergedConfig (resolve pe now d preset file)) = level d.
Proof.
  intros Ht. unfold resolve.
  destruct (collectConfigSources_default_last pe now d preset file) as [front ->].
  rewrite mergeConfigs_snoc. by apply mergeSource_level.
Qed.

(** C1, evaluated at the sources [environment { level: error }] and
    [default { level: info }]: sorting puts the environment source first
    and the default source last, the merge loop lets every later source
    overwrite the scalar, and the resolved level is the default's
    ["info"], not the environment's ["error"]. *)
Theorem mergeConfigs_default_overrides_environment :
  map (fun s => (src_type s, src_priority s, p_level (src_config s)))
    Samples.sources1
  = [(environment_src, 1%Z, Some "error"); (default_src, 4%Z, Some "info")]
  ∧ level (mergedConfig Samples.merged1) = "info"
  ∧ level (mergedConfig Samples.merged1) ≠ "error"
  ∧ mergedPaths Samples.merged1
    = ["level from environment"; "level from default"; "streams from default"].
Proof.
  repeat split; try (vm_compute; reflexivity).
  vm_compute. discriminate.
Qed.

End ConfigResolutionFacts.

(** ** The stream registry *)

Section StreamRegistryFacts.
Import StreamManager.

(** C2, evaluated at the configuration whose only stream is
    [{ name: 'default-console', type: 'console', level: 'info' }]: the
    stream constructs and is registered under its name, [initialize]
    succeeds, yet [getMultiStreams] is empty, because the filter looks up
    the stream's level ["info"] in the set of active stream names. *)
Theorem getMultiStreams_empty_after_initialize :
  forallb (fun e => isOk (createStream Samples.anyHost e))
    (Types.streams Samples.oneConsole) = true
  ∧ initialize Samples.anyHost (new Samples.oneConsole)
    = (Ok tt, Samples.registry1)
  ∧ map se_name (Types.streams Samples.oneConsole) = ["default-console"]
  ∧ streams Samples.registry1
    = [("default-console",
        {| stream := Stdout; ms_level := "info"; autoEnd := true |})]
  ∧ bool_decide ("default-console" ∈ activeStreams Samples.registry1) = true
  ∧ getMultiStreams Samples.registry1 = [].
Proof. repeat split; vm_compute; reflexivity. Qed.

(** C6 as stated fails: adding a console stream under the registered
    name ["default-console"] succeeds and changes the registry. *)
Lemma addStream_existing_name_not_rejected :
  OrderedMap.get (se_name Samples.errorConsole) (streams Samples.registry1)
  = Some {| stream := Stdout; ms_level := "info"; autoEnd := true |}
  ∧ ¬ (isErr (fst (addStream Samples.anyHost Samples.errorConsole
                     Samples.registry1)) = true
       ∧ snd (addStream Samples.anyHost Samples.errorConsole Samples.registry1)
         = Samples.registry1).
Proof.
  split; [vm_compute; reflexivity|].
  intros [H _]. vm_compute in H. discriminate.
Qed.

(** C6, amended: for a descriptor whose name is already registered,
    [addStream] fails and leaves the registry unchanged only when the
    destination does not construct; when it constructs, [addStream]
    succeeds and the registry holds the new destination under that name,
    the name keeping its single entry and its position, every other entry
    being unchanged and the name being active. *)
Theorem addStream_existing_name_replaces h entry m old :
  OrderedMap.get (se_name entry) (streams m) = Some old →
  match createStream h entry with
  | Ok res =>
      ∃ m',
        addStream h entry m = (Ok tt, m')
        ∧ OrderedMap.get (se_name entry) (streams m') = Some res
        ∧ OrderedMap.keys (streams m') = OrderedMap.keys (streams m)
        ∧ (∀ n, n ≠ se_name entry →
                OrderedMap.get n (streams m') = OrderedMap.get n (streams m))
        ∧ se_name entry ∈ activeStreams m'
        ∧ config m' = config m ∧ ended m' = ended m
  | Err msg => addStream h entry m = (Err msg, m)
  end.
Proof.
  intros Hold. unfold addStream.
  destruct (createStream h entry) as [res|msg]; [|done].
  eexists. split; [reflexivity|]. simpl.
  split; [apply get_set_eq|].
  split; [by eapply keys_set_present|].
  split; [intros n Hn; by apply get_set_ne|].
  split; [set_solver|done].
Qed.

Lemma addStream_existing_name_replaces_witness :
  OrderedMap.get "default-console" (streams Samples.registry1)
  = Some {| stream := Stdout; ms_level := "info"; autoEnd := true |}
  ∧ ∃ m',
      addStream Samples.anyHost Samples.errorConsole Samples.registry1
      = (Ok tt, m')
      ∧ OrderedMap.get "default-console" (streams m')
        = Some {| stream := Stdout; ms_level := "error"; autoEnd := true |}.
Proof.
  split; [vm_compute; reflexivity|].
  destruct (addStream_existing_name_replaces Samples.anyHost
              Samples.errorConsole Samples.registry1
              {| stream := Stdout; ms_level := "info"; autoEnd := true |})
    as [m' [H1 [H2 _]]]; [vm_compute; reflexivity|].
  exists m'. split; [exact H1|exact H2].
Defined.

End StreamRegistryFacts.

(** ** Stream progress *)

Section StreamProgressFacts.
Import StreamStateTracker.
Local Open Scope Z_scope.

(** The rate stored by an update on a tracked stream: the bytes since
    the previous update over the seconds since the stream started. *)
Lemma updateStreamProgress_rate_formula now nowEta sid bytes chunks tr state prog :
  activeStreams tr !! sid = Some state →
  streamProgress tr !! sid = Some prog →
  startTime prog < now →
  ∃ prog',
    streamProgress (snd (updateStreamProgress now nowEta sid bytes chunks tr)) !! sid
    = Some prog'
    ∧ transferRate prog'
      = (inject_Z (bytes - bytesTransferred prog)
         / (inject_Z (now - startTime prog) / 1000))%Q
    ∧ lastUpdateTime prog' = now
    ∧ bytesTransferred prog' = bytes.
Proof.
  intros Hs Hp Hlt. unfold updateStreamProgress. rewrite Hs, Hp. simpl.
  rewrite lookup_insert_eq. eexists. split; [reflexivity|]. simpl.
  assert ((0 <? now - startTime prog) = true) as -> by (apply Z.ltb_lt; lia).
  done.
Qed.

(** C3, evaluated on a stream started at 0 ms that receives 1000 bytes
    by 1000 ms and 2000 bytes by 2000 ms: the second update stores
    500 bytes/s (1000 new bytes over the 2 s since the start), where the
    rate since the previous update is 1000 bytes/s (1000 new bytes over
    1 s). *)
Theorem updateStreamProgress_rate_uses_start_time :
  match streamProgress Samples.progress1 !! "s1",
        streamProgress Samples.progress2 !! "s1" with
  | Some p1, Some p2 =>
      bytesTransferred p1 = 1000 ∧ lastUpdateTime p1 = 1000
      ∧ bytesTransferred p2 = 2000 ∧ lastUpdateTime p2 = 2000
      ∧ (transferRate p2 == 500)%Q
      ∧ (instantaneousRate (bytesTransferred p1) (lastUpdateTime p1) 2000 2000
         == 1000)%Q
      ∧ ¬ (transferRate p2
           == instantaneousRate (bytesTransferred p1) (lastUpdateTime p1)
                2000 2000)%Q
  | _, _ => False
  end.
Proof.
  vm_compute. repeat split; try reflexivity. intros H. discriminate H.
Qed.

End StreamProgressFacts.

(** ** Request contexts *)

Section RequestTrackingFacts.
Import RequestContextTracker.
Local Open Scope Z_scope.

(** A first [trackRequestStart] for an identifier stores a context whose
    status is [undefined]. *)
Lemma trackRequestStart_fresh_status now g rid m u hdrs tr :
  getContext rid tr = None →
  status <$> getContext rid (trackRequestStart now g rid m u hdrs tr)
  = Some None.
Proof.
  intros H. unfold trackRequestStart. rewrite H.
  unfold getContext, log, createContext. simpl.
  by rewrite lookup_insert_eq.
Qed.

(** A repeated [trackRequestStart] stores the method and the url it is
    given and writes [undefined] over the status, whatever it was. *)
Lemma trackRequestStart_again now g rid m u hdrs tr c :
  getContext rid tr = Some c →
  ∃ c',
    getContext rid (trackRequestStart now g rid m u hdrs tr) = Some c'
    ∧ status c' = None ∧ method c' = m ∧ url c' = u
    ∧ startTime c' = startTime c ∧ sessionId c' = sessionId c.
Proof.
  intros H. unfold trackRequestStart. rewrite H.
  unfold updateContext. unfold getContext in H. rewrite H.
  unfold getContext, log. simpl. rewrite lookup_insert_eq.
  by eexists.
Qed.

(** C7, evaluated at [trackRequestStart("r1", "GET", "/a")] on a new
    tracker: the context is created with the method and the url, but its
    status is [undefined] and no member of [RequestStatus]: the enum has
    neither [CREATED] nor [ACTIVE], so both reads give [undefined].  The
    test of [getActiveRequests] holds of the context only because it
    compares [undefined] with [undefined], and a second
    [trackRequestStart] for the identifier writes [undefined] again. *)
Theorem trackRequestStart_status_is_undefined :
  getContext "r1" Samples.requests0 = None
  ∧ (method <$> getContext "r1" Samples.requests1) = Some "GET"
  ∧ (url <$> getContext "r1" Samples.requests1) = Some "/a"
  ∧ (status <$> getContext "r1" Samples.requests1) = Some None
  ∧ (∀ s : RequestStatus.t,
       (status <$> getContext "r1" Samples.requests1) ≠ Some (Some s))
  ∧ RequestStatus.prop "CREATED" = None
  ∧ RequestStatus.prop "ACTIVE" = None
  ∧ (isActive <$> getContext "r1" Samples.requests1) = Some true
  ∧ activeRequests (statistics Samples.requests1) = 1
  ∧ (status <$> getContext "r1" Samples.requests2) = Some None.
Proof.
  repeat split; try (vm_compute; reflexivity).
  intros s. vm_compute. discriminate.
Qed.

(** C10: for a request identifier without a context, [trackRequestEnd]
    and [trackRequestError] return the tracker as it was: no context is
    created, the five statistics keep their values and no line is
    logged. *)
Theorem trackRequestEnd_Error_unknown_id_noop rid tr :
  getContext rid tr = None →
  (∀ now code dur responseSize,
      trackRequestEnd now rid code dur responseSize tr = tr)
  ∧ (∀ now e code, trackRequestError now rid e code tr = tr).
Proof.
  intros H. unfold getContext in H. split.
  - intros. unfold trackRequestEnd, updateContext. by rewrite H.
  - intros. unfold trackRequestError, updateContext, getContext. by rewrite H.
Qed.

Lemma trackRequestEnd_Error_unknown_id_noop_witness :
  getContext "ghost" Samples.requests1 = None
  ∧ trackRequestEnd 9 "ghost" 500 120 None Samples.requests1 = Samples.requests1
  ∧ trackRequestError 9 "ghost"
      {| ei_name := "Error"; ei_message := "boom"; ei_stack := None |}
      (Some 500) Samples.requests1 = Samples.requests1
  ∧ statistics (trackRequestEnd 9 "ghost" 500 120 None Samples.requests1)
    = statistics Samples.requests1.
Proof.
  assert (getContext "ghost" Samples.requests1 = None) as H
    by (vm_compute; reflexivity).
  destruct (trackRequestEnd_Error_unknown_id_noop "ghost" Samples.requests1 H)
    as [Hend Herr].
  split; [exact H|]. split; [apply Hend|]. split; [apply Herr|].
  by rewrite Hend.
Defined.

End RequestTrackingFacts.

(** ** The error aggregator *)

Section ErrorAggregatorFacts.
Import ErrorLogger.

Lemma sliceLast_short {A} (n : nat) (l : list A) :
  (length l ≤ n)%nat → sliceLast n l = l.
Proof.
  intros H. unfold sliceLast.
  replace (length l - n)%nat with 0%nat by lia. done.
Qed.

Lemma length_sliceLast {A} (n : nat) (l : list A) :
  length (sliceLast n l) = Nat.min (length l) n.
Proof. unfold sliceLast. rewrite length_drop. lia. Qed.

(** Capping, pushing more and capping again keeps the same entries as
    pushing everything and capping once. *)
Lemma sliceLast_app {A} (n : nat) (l k : list A) :
  sliceLast n (sliceLast n l ++ k) = sliceLast n (l ++ k).
Proof.
  destruct (decide (length l ≤ n)%nat) as [Hle|Hgt].
  - by rewrite (sliceLast_short n l).
  - unfold sliceLast. rewrite !length_app, length_drop.
    replace (length l - (length l - n) + length k - n)%nat
      with (length k) by lia.
    replace (length l + length k - n)%nat
      with (length l - n + length k)%nat by lia.
    rewrite <- drop_drop.
    rewrite (drop_app_le l k (length l - n)) by lia.
    done.
Qed.

Lemma addToErrorHistory_sliceLast e history :
  addToErrorHistory e history = sliceLast maxHistorySize (history ++ [e]).
Proof.
  unfold addToErrorHistory.
  destruct (maxHistorySize <? length (history ++ [e]))%nat eqn:E; [done|].
  apply Nat.ltb_ge in E. by rewrite sliceLast_short.
Qed.

Lemma logErrors_cons c calls s :
  logErrors (c :: calls) s
  = logErrors calls (let '(now, e, ctx) := c in logError now e ctx s).
Proof. done. Qed.

Lemma errorHistory_logError c s :
  errorHistory (let '(now, e, ctx) := c in logError now e ctx s)
  = addToErrorHistory (entryOf c) (errorHistory s).
Proof. by destruct c as [[now e] ctx]. Qed.

Lemma errorCounts_logError c s :
  errorCounts (let '(now, e, ctx) := c in logError now e ctx s)
  = updateErrorCount (name (snd (fst c))) (errorCounts s).
Proof. by destruct c as [[now e] ctx]. Qed.

(** After at least one call, the history is the last [maxHistorySize]
    entries of what was there followed by what was recorded. *)
Lemma errorHistory_logErrors calls : ∀ s,
  calls ≠ [] →
  errorHistory (logErrors calls s)
  = sliceLast maxHistorySize (errorHistory s ++ map entryOf calls).
Proof.
  induction calls as [|c calls IH]; intros s Hne; [done|].
  rewrite logErrors_cons.
  destruct calls as [|c' calls'].
  - unfold logErrors. cbn [fold_left].
    by rewrite errorHistory_logError, addToErrorHistory_sliceLast.
  - rewrite IH by done.
    rewrite errorHistory_logError, addToErrorHistory_sliceLast.
    rewrite sliceLast_app. cbn [map]. by rewrite <- app_assoc.
Qed.

Lemma length_addToErrorHistory e history :
  length (addToErrorHistory e history)
  = Nat.min (S (length history)) maxHistorySize.
Proof.
  rewrite addToErrorHistory_sliceLast, length_sliceLast, length_app.
  cbn [length]. lia.
Qed.

Lemma length_errorHistory_logErrors calls : ∀ s,
  calls ≠ [] →
  length (errorHistory (logErrors calls s))
  = Nat.min (length (errorHistory s) + length calls) maxHistorySize.
Proof.
  induction calls as [|c calls IH]; intros s Hne; [done|].
  rewrite logErrors_cons.
  destruct calls as [|c' calls'].
  - unfold logErrors. cbn [fold_left].
    rewrite errorHistory_logError, length_addToErrorHistory.
    cbn [length]. lia.
  - rewrite IH by done.
    rewrite errorHistory_logError, length_addToErrorHistory.
    cbn [length]. lia.
Qed.

Lemma countTotal_set k v counts :
  countTotal (OrderedMap.set k v counts)
  = (countTotal counts
     - match OrderedMap.get k counts with Some c => c | None => 0 end
     + v)%Z.
Proof.
  induction counts as [|[k' c'] r IH]; simpl.
  - lia.
  - destruct (String.eqb k k'); simpl; [lia|]. rewrite IH. lia.
Qed.

Lemma countTotal_updateErrorCount n counts :
  countTotal (updateErrorCount n counts) = (countTotal counts + 1)%Z.
Proof. unfold updateErrorCount. rewrite countTotal_set. lia. Qed.

(** Counts are never evicted: every call adds one to the total. *)
Lemma countTotal_logErrors calls : ∀ s,
  countTotal (errorCounts (logErrors calls s))
  = (countTotal (errorCounts s) + Z.of_nat (length calls))%Z.
Proof.
  induction calls as [|c calls IH]; intros s.
  - simpl. lia.
  - rewrite logErrors_cons, IH, errorCounts_logError,
      countTotal_updateErrorCount.
    simpl length. lia.
Qed.

(** C8: 1001 calls of [logError] leave 1000 history entries, namely the
    entries of all those calls but the first (the oldest is the one
    evicted), and add 1001 to the total of the name-to-count map, so that
    on an aggregator that starts with no counts the values add up to
    1001. *)
Theorem logError_1001_history_capped s (calls : list Call) :
  length calls = 1001%nat →
  length (errorHistory (logErrors calls s)) = 1000%nat
  ∧ errorHistory (logErrors calls s) = map entryOf (drop 1 calls)
  ∧ countTotal (errorCounts (logErrors calls s))
    = (countTotal (errorCounts s) + 1001)%Z
  ∧ (errorCounts s = [] →
     countTotal (errorCounts (logErrors calls s)) = 1001%Z).
Proof.
  intros Hlen.
  assert (errorHistory (logErrors calls s) = map entryOf (drop 1 calls)) as Hh.
  { rewrite errorHistory_logErrors by (intros ->; discriminate Hlen).
    unfold sliceLast. rewrite length_app, length_map, Hlen.
    unfold maxHistorySize.
    replace (length (errorHistory s) + 1001 - 1000)%nat
      with (length (errorHistory s) + 1)%nat by lia.
    rewrite drop_app_add. apply skipn_map. }
  assert (countTotal (errorCounts (logErrors calls s))
          = (countTotal (errorCounts s) + 1001)%Z) as Hc.
  { rewrite countTotal_logErrors, Hlen. lia. }
  split; [|split; [|split]].
  - rewrite Hh, length_map, length_drop. lia.
  - exact Hh.
  - exact Hc.
  - intros Hnil. rewrite Hc, Hnil. done.
Qed.

Lemma logError_1001_history_capped_witness :
  length Samples.calls1001 = 1001%nat
  ∧ length (errorHistory (logErrors Samples.calls1001 (new Samples.logger0)))
    = 1000%nat
  ∧ errorHistory (logErrors Samples.calls1001 (new Samples.logger0))
    = map entryOf (drop 1 Samples.calls1001)
  ∧ countTotal (errorCounts (logErrors Samples.calls1001 (new Samples.logger0)))
    = 1001%Z.
Proof.
  assert (length Samples.calls1001 = 1001%nat) as H
    by (vm_compute; reflexivity).
  destruct (logError_1001_history_capped (new Samples.logger0)
              Samples.calls1001 H) as [Hlen [Hh [_ Hc]]].
  split; [exact H|]. split; [exact Hlen|]. split; [exact Hh|].
  apply Hc. reflexivity.
Defined.

(** C9: after more than 1000 calls of [logError], from any state of the
    aggregator, [getErrorStatistics().totalErrors] is exactly 1000: it
    is the length of the capped history. *)
Theorem totalErrors_capped_at_1000 (calls : list Call) s :
  (1000 < length calls)%nat →
  totalErrors (getErrorStatistics (logErrors calls s)) = 1000%Z.
Proof.
  intros Hlen. unfold getErrorStatistics. simpl.
  rewrite length_errorHistory_logErrors.
  - unfold maxHistorySize. lia.
  - intros ->. simpl in Hlen. lia.
Qed.

Lemma totalErrors_capped_at_1000_witness :
  (1000 < length Samples.calls1500)%nat
  ∧ totalErrors
      (getErrorStatistics (logErrors Samples.calls1500 (new Samples.logger0)))
    = 1000%Z.
Proof.
  assert (1000 < length Samples.calls1500)%nat as H
    by (vm_compute; lia).
  split; [exact H|].
  exact (totalErrors_capped_at_1000 Samples.calls1500 (new Samples.logger0) H).
Defined.

End ErrorAggregatorFacts.

(** ** The orchestrator *)

Section LogManagerFacts.
Import LogManager.

(** Once the flag is set, [initialize] is the identity. *)
Lemma initialize_when_initialized h now m :
  initialized m = true → initialize h now m = (Ok tt, m).
Proof. intros H. unfold initialize. by rewrite H. Qed.

(** A successful [initialize] leaves the flag set. *)
Lemma initialize_ok_sets_flag h now m m1 :
  initialize h now m = (Ok tt, m1) → initialized m1 = true.
Proof.
  unfold initialize. destruct (initialized m) eqn:E.
  - intros [= <-]. exact E.
  - destruct (LogConfigManager.initialize (configManager m)) as [[u|e] cm];
      [|discriminate].
    cbn. intros [= <-]. done.
Qed.

(** C4: a second [initialize] right after a successful first one
    returns success and hands back the manager exactly as the first call
    left it: the flag stays set and the logger, the stream manager and
    the three trackers are the same, whatever the host and the clock say
    at the second call. *)
Theorem initialize_twice_is_noop h1 now1 h2 now2 m m1 :
  initialize h1 now1 m = (Ok tt, m1) →
  initialized m1 = true
  ∧ initialize h2 now2 m1 = (Ok tt, m1).
Proof.
  intros H. apply initialize_ok_sets_flag in H.
  split; [exact H|]. by apply initialize_when_initialized.
Qed.

Lemma initialize_twice_is_noop_witness :
  initialize Samples.anyHost 0 (new None) = (Ok tt, Samples.manager1)
  ∧ initialized Samples.manager1 = true
  ∧ initialize Samples.anyHost 7 Samples.manager1 = (Ok tt, Samples.manager1).
Proof.
  assert (initialize Samples.anyHost 0 (new None) = (Ok tt, Samples.manager1))
    as H by (vm_compute; reflexivity).
  split; [exact H|].
  exact (initialize_twice_is_noop Samples.anyHost 0 Samples.anyHost 7
           (new None) Samples.manager1 H).
Defined.

(** C5: when the fragment laid over the current configuration fails
    validation, [updateConfig] returns an error and the manager is
    exactly as before: the configuration in effect, the stream manager
    (nothing ended, nothing rebuilt), the logger and the trackers. *)
Theorem updateConfig_invalid_keeps_last_good h newConfig m :
  LogConfigManager.validate
    (LogConfigManager.applyPartial
       (LogConfigManager.getConfig (configManager m)) newConfig) = false →
  ∃ e,
    updateConfig h newConfig m = (Err e, m)
    ∧ LogConfigManager.getConfig (configManager (snd (updateConfig h newConfig m)))
      = LogConfigManager.getConfig (configManager m)
    ∧ streamManager (snd (updateConfig h newConfig m)) = streamManager m
    ∧ logger (snd (updateConfig h newConfig m)) = logger m.
Proof.
  intros Hbad.
  assert (updateConfig h newConfig m = (Err "Configuration update failed", m))
    as Heq.
  { unfold updateConfig, LogConfigManager.updateConfig.
    unfold LogConfigManager.getConfig in Hbad. rewrite Hbad.
    by destruct m. }
  exists "Configuration update failed". by rewrite Heq.
Qed.

Lemma updateConfig_invalid_keeps_last_good_witness :
  LogConfigManager.validate
    (LogConfigManager.applyPartial
       (LogConfigManager.getConfig (configManager Samples.manager1))
       Samples.badLevel) = false
  ∧ ∃ e,
      updateConfig Samples.anyHost Samples.badLevel Samples.manager1
      = (Err e, Samples.manager1).
Proof.
  assert (LogConfigManager.validate
            (LogConfigManager.applyPartial
               (LogConfigManager.getConfig (configManager Samples.manager1))
               Samples.badLevel) = false) as H by (vm_compute; reflexivity).
  split; [exact H|].
  destruct (updateConfig_invalid_keeps_last_good Samples.anyHost
              Samples.badLevel Samples.manager1 H) as [e [He _]].
  exists e. exact He.
Defined.

End LogManagerFacts.

(** * Further properties of the code *)

(** ** Ordered maps: keys and deletion *)

Section OrderedMapKeys.
Context {V : Type}.
Implicit Types (m : list (string * V)) (k n : string) (v : V).

Lemma get_None_keys k m :
  OrderedMap.get k m = None ↔ k ∉ OrderedMap.keys m.
Proof.
  unfold OrderedMap.keys. induction m as [|[k' v'] r IH]; simpl.
  - split; [intros _; apply not_elem_of_nil|done].
  - rewrite not_elem_of_cons. destruct (String.eqb k k') eqn:E.
    + apply String.eqb_eq in E. subst. split; [done|]. by intros [H _].
    + apply String.eqb_neq in E. rewrite IH. tauto.
Qed.

Lemma in_keys_set n k v m :
  n ∈ OrderedMap.keys (OrderedMap.set k v m) ↔ n = k ∨ n ∈ OrderedMap.keys m.
Proof.
  unfold OrderedMap.keys. induction m as [|[k' v'] r IH]; simpl.
  - rewrite elem_of_cons. tauto.
  - destruct (String.eqb k k') eqn:E; simpl.
    + apply String.eqb_eq in E. subst. rewrite !elem_of_cons. tauto.
    + rewrite !elem_of_cons, IH. tauto.
Qed.

Lemma NoDup_keys_set k v m :
  NoDup (OrderedMap.keys m) → NoDup (OrderedMap.keys (OrderedMap.set k v m)).
Proof.
  unfold OrderedMap.keys. induction m as [|[k' v'] r IH]; simpl; intros Hnd.
  - apply NoDup_singleton.
  - apply NoDup_cons in Hnd as [Hnotin Hnd].
    destruct (String.eqb k k') eqn:E; simpl.
    + apply String.eqb_eq in E. subst. by apply NoDup_cons.
    + apply NoDup_cons. split; [|by apply IH].
      intros Hin. apply (in_keys_set k' k v r) in Hin as [Heq|Hin]; [|done].
      subst. by rewrite String.eqb_refl in E.
Qed.

Lemma in_keys_delete n k m :
  NoDup (OrderedMap.keys m) →
  n ∈ OrderedMap.keys (OrderedMap.delete k m)
  ↔ n ≠ k ∧ n ∈ OrderedMap.keys m.
Proof.
  unfold OrderedMap.keys. induction m as [|[k' v'] r IH]; simpl; intros Hnd.
  - split; [by intros ?%elem_of_nil|by intros [_ ?%elem_of_nil]].
  - apply NoDup_cons in Hnd as [Hnotin Hnd].
    destruct (String.eqb k k') eqn:E; simpl.
    + apply String.eqb_eq in E. subst. rewrite elem_of_cons. split.
      * intros Hin. split; [by intros ->|by right].
      * intros [Hne [Heq|Hin]]; [by subst|done].
    + apply String.eqb_neq in E. rewrite !elem_of_cons, (IH Hnd). split.
      * intros [Heq|[Hne Hin]]; [subst; split; [done|by left]|split; [done|by right]].
      * intros [Hne [Heq|Hin]]; [by left|by right].
Qed.

Lemma NoDup_keys_delete k m :
  NoDup (OrderedMap.keys m) → NoDup (OrderedMap.keys (OrderedMap.delete k m)).
Proof.
  unfold OrderedMap.keys. induction m as [|[k' v'] r IH]; simpl; intros Hnd;
    [constructor|].
  apply NoDup_cons in Hnd as [Hnotin Hnd].
  destruct (String.eqb k k') eqn:E; simpl; [done|].
  apply NoDup_cons. split; [|by apply IH].
  intros Hin. apply (in_keys_delete k' k r Hnd) in Hin as [_ Hin]. done.
Qed.

Lemma get_delete_eq k m :
  NoDup (OrderedMap.keys m) → OrderedMap.get k (OrderedMap.delete k m) = None.
Proof.
  intros Hnd. apply get_None_keys. intros Hin.
  apply (in_keys_delete k k m Hnd) in Hin as [Hne _]. done.
Qed.

Lemma get_delete_ne n k m :
  n ≠ k → OrderedMap.get n (OrderedMap.delete k m) = OrderedMap.get n m.
Proof.
  intros Hne. induction m as [|[k' v'] r IH]; simpl; [done|].
  destruct (String.eqb k k') eqn:E; simpl.
  - apply String.eqb_eq in E. subst.
    apply String.eqb_neq in Hne. by rewrite Hne.
  - by rewrite IH.
Qed.

Lemma delete_set_absent k v m :
  OrderedMap.get k m = None → OrderedMap.delete k (OrderedMap.set k v m) = m.
Proof.
  induction m as [|[k' v'] r IH]; simpl.
  - by rewrite String.eqb_refl.
  - destruct (String.eqb k k') eqn:E; simpl; [done|].
    intros H. rewrite E. by rewrite IH.
Qed.

Lemma get_Some_in_keys k m v :
  OrderedMap.get k m = Some v → k ∈ OrderedMap.keys m.
Proof.
  intros H. destruct (decide (k ∈ OrderedMap.keys m)) as [Hin|Hnin]; [done|].
  apply get_None_keys in Hnin. congruence.
Qed.

End OrderedMapKeys.

(** ** The stream registry: removal, update, teardown *)

Section StreamRegistryMore.
Import StreamManager.

(** A name is not in a set it was just removed from. *)
Ltac not_in_removed :=
  let H := fresh in
  intros [_ H]%elem_of_difference; apply H; by apply elem_of_singleton.

Lemma addStream_consistent h entry m :
  namesConsistent m → namesConsistent (snd (addStream h entry m)).
Proof.
  intros [Hnd Hact]. unfold addStream.
  destruct (createStream h entry) as [res|msg]; simpl; [|done].
  split; simpl.
  - by apply NoDup_keys_set.
  - intros n. rewrite in_keys_set, elem_of_union, elem_of_singleton, Hact.
    tauto.
Qed.

Lemma createDefaultStream_consistent h m e :
  namesConsistent m → namesConsistent (createDefaultStream h m e).
Proof.
  intros [Hnd Hact]. unfold createDefaultStream.
  destruct (createStream h e) as [res|msg]; simpl; [|done].
  split; simpl.
  - by apply NoDup_keys_set.
  - intros n. rewrite in_keys_set, elem_of_union, elem_of_singleton, Hact.
    tauto.
Qed.

Lemma initialize_consistent h m :
  namesConsistent m → namesConsistent (snd (initialize h m)).
Proof.
  unfold initialize, createDefaultStreams. simpl.
  generalize (Types.streams (config m)) as l. intros l. revert m.
  induction l as [|e l IH]; intros m Hm; simpl; [done|].
  apply IH. by apply createDefaultStream_consistent.
Qed.

Lemma removeStream_consistent name m :
  namesConsistent m → namesConsistent (snd (removeStream name m)).
Proof.
  intros [Hnd Hact]. unfold removeStream.
  destruct (OrderedMap.get name (streams m)) as [s|]; simpl; [|done].
  destruct (endIfOwned s); simpl; [|done].
  split; simpl.
  - by apply NoDup_keys_delete.
  - intros n.
    rewrite in_keys_delete, elem_of_difference, elem_of_singleton, Hact
      by done.
    tauto.
Qed.

Lemma updateStream_consistent h name p m :
  namesConsistent m → namesConsistent (snd (updateStream h name p m)).
Proof.
  intros Hm. unfold updateStream.
  pose proof (removeStream_consistent name m Hm) as H1.
  destruct (removeStream name m) as [[u|e] m1]; simpl in *; [|done].
  destruct (findEntry name (Types.streams (config m1))) as [existing|];
    simpl; [|done].
  pose proof (addStream_consistent h (spreadEntry existing p) m1 H1) as H2.
  destruct (addStream h (spreadEntry existing p) m1) as [[u'|e'] m2];
    simpl in *; done.
Qed.

(** Every public call keeps the registry consistent. *)
Lemma calls_consistent h cs : ∀ m,
  namesConsistent m → namesConsistent (calls h cs m).
Proof.
  induction cs as [|c cs IH]; intros m Hm; simpl; [done|].
  apply IH. destruct c; simpl.
  - by apply initialize_consistent.
  - by apply addStream_consistent.
  - by apply removeStream_consistent.
  - by apply updateStream_consistent.
  - split; simpl; [constructor|]. intros n.
    split; [by intros ?%elem_of_empty|by intros ?%elem_of_nil].
  - done.
Qed.

Lemma new_consistent c : namesConsistent (new c).
Proof.
  split; simpl; [constructor|]. intros n.
  split; [by intros ?%elem_of_empty|by intros ?%elem_of_nil].
Qed.

(** X1: after any run of [initialize], [addStream], [removeStream],
    [updateStream], [cleanup] and [updateConfig] calls on a new
    [StreamManager], no two registered streams share a name. *)
Theorem registry_names_unique h c cs :
  NoDup (OrderedMap.keys (streams (calls h cs (new c)))).
Proof. apply (calls_consistent h cs (new c) (new_consistent c)). Qed.

(** X2: in every state reached by such calls, [getAllStreamStatus]
    reports every registered stream as active: the [active] flag it
    returns is never [false]. *)
Theorem status_always_active h c cs name active lvl :
  In (name, (active, lvl)) (getAllStreamStatus (calls h cs (new c))) →
  active = true.
Proof.
  destruct (calls_consistent h cs (new c) (new_consistent c)) as [_ Hact].
  unfold getAllStreamStatus. intros Hin.
  apply in_map_iff in Hin as [[k s] [Heq Hin]]. simpl in Heq.
  injection Heq as -> <- _.
  apply bool_decide_eq_true. apply Hact.
  unfold OrderedMap.keys. apply list_elem_of_In. apply in_map_iff.
  by exists (name, s).
Qed.

Lemma status_always_active_witness :
  In ("audit", (true, "warn"))
    (getAllStreamStatus
       (calls Samples.anyHost
          [CallInitialize; CallAddStream (consoleEntry "audit" "warn")]
          (new Samples.oneConsole)))
  ∧ true = true.
Proof.
  assert (In ("audit", (true, "warn"))
            (getAllStreamStatus
               (calls Samples.anyHost
                  [CallInitialize; CallAddStream (consoleEntry "audit" "warn")]
                  (new Samples.oneConsole)))) as H
    by (vm_compute; right; left; reflexivity).
  split; [exact H|].
  exact (status_always_active Samples.anyHost Samples.oneConsole _ _ _ _ H).
Defined.

(** [end()] throws on exactly one kind of handle, and [removeStream]
    calls it only on a handle the registry owns. *)
Lemma endIfOwned_Err s e :
  endIfOwned s = Err e
  ↔ autoEnd s = true
    ∧ (∃ p sz iv, stream s = RollPromise p sz iv)
    ∧ e = "stream.stream.end is not a function".
Proof.
  unfold endIfOwned, endStream. split.
  - destruct (autoEnd s); [|done].
    destruct (stream s) as [| |p|p sz iv]; try done.
    intros [= <-]. split; [done|]. split; [by eexists _, _, _|done].
  - intros [-> [[p [sz [iv ->]]] ->]]. done.
Qed.

Lemma endIfOwned_Ok s :
  endIfOwned s = Ok tt
  ↔ autoEnd s = false ∨ ∀ p sz iv, stream s ≠ RollPromise p sz iv.
Proof.
  unfold endIfOwned, endStream. split.
  - destruct (autoEnd s); [|by left].
    destruct (stream s) as [| |p|p sz iv]; try done; by right.
  - intros [->|H]; [done|].
    destruct (autoEnd s); [|done].
    destruct (stream s) as [| |p|p sz iv]; try done.
    by destruct (H p sz iv).
Qed.

(** X3: [removeStream] of a name that is not registered returns
    [Stream not found] and changes nothing.  Of a registered stream whose
    handle the registry owns ([autoEnd]) and cannot end, which is the
    Promise every rotation stream holds, it returns the [TypeError] of
    [end()] and the stream stays registered and active.  Of any other
    registered stream it succeeds: the name is no longer found nor
    active, every other entry is as before, and the handle is ended
    exactly when the stream owns its life cycle. *)
Theorem removeStream_effect name m :
  NoDup (OrderedMap.keys (streams m)) →
  match OrderedMap.get name (streams m) with
  | None =>
      removeStream name m = (Err (String.append "Stream not found: " name), m)
  | Some s =>
      (autoEnd s = true → (∃ p sz iv, stream s = RollPromise p sz iv) →
       removeStream name m = (Err "stream.stream.end is not a function", m))
      ∧ (autoEnd s = false ∨ (∀ p sz iv, stream s ≠ RollPromise p sz iv) →
         ∃ m',
           removeStream name m = (Ok tt, m')
           ∧ OrderedMap.get name (streams m') = None
           ∧ (name ∉ activeStreams m')
           ∧ (∀ n, n ≠ name →
                   OrderedMap.get n (streams m') = OrderedMap.get n (streams m))
           ∧ ended m' = (if autoEnd s then ended m ++ [stream s] else ended m)
           ∧ consoleErrors m' = consoleErrors m)
  end.
Proof.
  intros Hnd. unfold removeStream.
  destruct (OrderedMap.get name (streams m)) as [s|]; [|done].
  split.
  - intros Hauto Hroll.
    assert (endIfOwned s = Err "stream.stream.end is not a function") as ->
      by (by apply endIfOwned_Err).
    done.
  - intros Hok. apply endIfOwned_Ok in Hok. rewrite Hok.
    eexists. split; [reflexivity|]. simpl.
    split; [by apply get_delete_eq|].
    split; [not_in_removed|].
    split; [intros n Hn; by apply get_delete_ne|done].
Qed.

Lemma removeStream_effect_witness :
  NoDup (OrderedMap.keys (streams Samples.registry3))
  ∧ removeStream "app" Samples.registry3
    = (Err "stream.stream.end is not a function", Samples.registry3)
  ∧ ∃ m',
      removeStream "default-console" Samples.registry3 = (Ok tt, m')
      ∧ OrderedMap.get "default-console" (streams m') = None
      ∧ ended m' = [Stdout].
Proof.
  assert (NoDup (OrderedMap.keys (streams Samples.registry3))) as H.
  { vm_compute. apply NoDup_cons. split; [|apply NoDup_singleton].
    intros Hin. apply list_elem_of_singleton in Hin. discriminate Hin. }
  split; [exact H|].
  pose proof (removeStream_effect "app" Samples.registry3 H) as Happ.
  pose proof (removeStream_effect "default-console" Samples.registry3 H) as Hcon.
  assert (OrderedMap.get "app" (streams Samples.registry3)
          = Some Samples.rollingHandle) as Ea by (vm_compute; reflexivity).
  assert (OrderedMap.get "default-console" (streams Samples.registry3)
          = Some {| stream := Stdout; ms_level := "info"; autoEnd := true |})
    as Ec by (vm_compute; reflexivity).
  rewrite Ea in Happ. rewrite Ec in Hcon.
  split.
  - apply (proj1 Happ); [reflexivity|]. by eexists _, _, _.
  - destruct (proj2 Hcon) as [m' [H1 [H2 [_ [_ [H3 _]]]]]].
    + right. intros p sz iv. discriminate.
    + exists m'. split; [exact H1|]. split; [exact H2|exact H3].
Defined.

(** X4: [updateStream] has no rollback.  For a registered stream that
    [removeStream] can take out, whenever [updateStream] returns an
    error the stream is gone from the registry and from the active set,
    and its handle was ended if the registry owned it.  For a registered
    stream whose [end()] throws (a rotation stream under [autoEnd]),
    [updateStream] always returns that error and changes nothing: such a
    stream cannot be updated. *)
Theorem updateStream_no_rollback h name p m s :
  NoDup (OrderedMap.keys (streams m)) →
  OrderedMap.get name (streams m) = Some s →
  match endIfOwned s with
  | Err e => updateStream h name p m = (Err e, m)
  | Ok _ =>
      ∀ e m', updateStream h name p m = (Err e, m') →
        OrderedMap.get name (streams m') = None
        ∧ (name ∉ activeStreams m')
        ∧ ended m' = (if autoEnd s then ended m ++ [stream s] else ended m)
  end.
Proof.
  intros Hnd Hs. unfold updateStream, removeStream. rewrite Hs.
  destruct (endIfOwned s) as [[]|e0]; [|done].
  cbn [config]. intros e m'.
  destruct (findEntry name (Types.streams (config m))) as [existing|].
  - unfold addStream.
    destruct (createStream h (spreadEntry existing p)) as [res|msg].
    + discriminate.
    + intros [= _ <-]. simpl.
      split; [by apply get_delete_eq|]. split; [not_in_removed|done].
  - intros [= _ <-]. simpl.
    split; [by apply get_delete_eq|]. split; [not_in_removed|done].
Qed.

Lemma updateStream_no_rollback_witness :
  NoDup (OrderedMap.keys (streams Samples.registry4))
  ∧ updateStream Samples.anyHost "app" noStreamUpdates Samples.registry4
    = (Err "stream.stream.end is not a function", Samples.registry4)
  ∧ fst (updateStream Samples.anyHost "default-console" Samples.toNetwork
           Samples.registry4)
    = Err "Unsupported stream type: network"
  ∧ OrderedMap.get "default-console"
      (streams (snd (updateStream Samples.anyHost "default-console"
                       Samples.toNetwork Samples.registry4)))
    = None.
Proof.
  assert (NoDup (OrderedMap.keys (streams Samples.registry4))) as H1.
  { vm_compute. apply NoDup_cons. split; [|apply NoDup_singleton].
    intros Hin. apply list_elem_of_singleton in Hin. discriminate Hin. }
  assert (OrderedMap.get "app" (streams Samples.registry4)
          = Some Samples.rollingHandle) as Ha by (vm_compute; reflexivity).
  assert (OrderedMap.get "default-console" (streams Samples.registry4)
          = Some {| stream := Stdout; ms_level := "info"; autoEnd := true |})
    as Hc by (vm_compute; reflexivity).
  assert (updateStream Samples.anyHost "default-console" Samples.toNetwork
            Samples.registry4
          = (Err "Unsupported stream type: network",
             snd (updateStream Samples.anyHost "default-console"
                    Samples.toNetwork Samples.registry4))) as H3
    by (vm_compute; reflexivity).
  split; [exact H1|].
  split.
  - exact (updateStream_no_rollback Samples.anyHost "app" noStreamUpdates
             Samples.registry4 Samples.rollingHandle H1 Ha).
  - split; [by rewrite H3|].
    exact (proj1 (updateStream_no_rollback Samples.anyHost "default-console"
                    Samples.toNetwork Samples.registry4 _ H1 Hc _ _ H3)).
Defined.

(** X5: a stream that is registered but has no entry of its name in
    the configuration (one added through [addStream]) cannot be updated.
    When [removeStream] can take it out, [updateStream] returns
    [Stream configuration not found] and the stream has been removed;
    when its [end()] throws, [updateStream] returns that error instead
    and the stream stays registered.  The configuration is untouched in
    both cases. *)
Theorem updateStream_unlisted_removed h name p m s :
  NoDup (OrderedMap.keys (streams m)) →
  OrderedMap.get name (streams m) = Some s →
  findEntry name (Types.streams (config m)) = None →
  match endIfOwned s with
  | Ok _ =>
      fst (updateStream h name p m)
      = Err (String.append "Stream configuration not found: " name)
      ∧ OrderedMap.get name (streams (snd (updateStream h name p m))) = None
  | Err e =>
      fst (updateStream h name p m) = Err e
      ∧ OrderedMap.get name (streams (snd (updateStream h name p m))) = Some s
  end
  ∧ config (snd (updateStream h name p m)) = config m.
Proof.
  intros Hnd Hs Hf. unfold updateStream, removeStream. rewrite Hs.
  destruct (endIfOwned s) as [[]|e0].
  - cbn [config]. rewrite Hf. simpl.
    split; [|done]. split; [done|by apply get_delete_eq].
  - simpl. by rewrite Hs.
Qed.

Lemma updateStream_unlisted_removed_witness :
  NoDup (OrderedMap.keys (streams Samples.registry2))
  ∧ findEntry "audit" (Types.streams (config Samples.registry2)) = None
  ∧ fst (updateStream Samples.anyHost "audit" noStreamUpdates Samples.registry2)
    = Err "Stream configuration not found: audit"
  ∧ OrderedMap.get "audit"
      (streams (snd (updateStream Samples.anyHost "audit" noStreamUpdates
                       Samples.registry2)))
    = None
  ∧ fst (updateStream Samples.anyHost "app" noStreamUpdates Samples.registry3)
    = Err "stream.stream.end is not a function"
  ∧ OrderedMap.get "app"
      (streams (snd (updateStream Samples.anyHost "app" noStreamUpdates
                       Samples.registry3)))
    = Some Samples.rollingHandle.
Proof.
  assert (NoDup (OrderedMap.keys (streams Samples.registry2))) as H1.
  { vm_compute. apply NoDup_cons. split; [|apply NoDup_singleton].
    intros Hin. apply list_elem_of_singleton in Hin. discriminate Hin. }
  assert (OrderedMap.get "audit" (streams Samples.registry2)
          = Some {| stream := Stdout; ms_level := "warn"; autoEnd := true |})
    as H2 by (vm_compute; reflexivity).
  assert (findEntry "audit" (Types.streams (config Samples.registry2)) = None)
    as H3 by (vm_compute; reflexivity).
  assert (NoDup (OrderedMap.keys (streams Samples.registry3))) as R1.
  { vm_compute. apply NoDup_cons. split; [|apply NoDup_singleton].
    intros Hin. apply list_elem_of_singleton in Hin. discriminate Hin. }
  assert (OrderedMap.get "app" (streams Samples.registry3)
          = Some Samples.rollingHandle) as R2 by (vm_compute; reflexivity).
  assert (findEntry "app" (Types.streams (config Samples.registry3)) = None)
    as R3 by (vm_compute; reflexivity).
  destruct (updateStream_unlisted_removed Samples.anyHost "audit"
              noStreamUpdates Samples.registry2 _ H1 H2 H3) as [[Ha Hb] _].
  destruct (updateStream_unlisted_removed Samples.anyHost "app"
              noStreamUpdates Samples.registry3 _ R1 R2 R3) as [[Hc Hd] _].
  split; [exact H1|]. split; [exact H3|]. split; [exact Ha|].
  split; [exact Hb|]. split; [exact Hc|exact Hd].
Defined.

End StreamRegistryMore.

Section StreamRegistryLifecycle.
Import StreamManager.

Lemma endOrReport_fold l : ∀ m,
  ended (fold_left endOrReport l m)
  = ended m
    ++ map stream
         (List.filter (fun s => autoEnd s && isOk (endStream (stream s)))
            (OrderedMap.values l))
  ∧ consoleErrors (fold_left endOrReport l m)
    = consoleErrors m
      ++ map (fun kv =>
                String.append "Error ending stream "
                  (String.append (fst kv) ":"))
           (List.filter
              (fun kv => autoEnd (snd kv) && isErr (endStream (stream (snd kv))))
              l).
Proof.
  unfold OrderedMap.values.
  induction l as [|[k s] l IH]; intros m; cbn [fold_left map List.filter].
  - by rewrite !app_nil_r.
  - destruct (IH (endOrReport m (k, s))) as [IH1 IH2].
    rewrite IH1, IH2. unfold endOrReport, isErr. cbn [fst snd].
    destruct (autoEnd s); cbn [andb]; [|done].
    destruct (endStream (stream s)) as [[]|e]; cbn [isOk negb map ended consoleErrors];
      by rewrite <- !app_assoc.
Qed.

(** X6: [cleanup] empties the registry and the active set.  It ends, in
    registration order, exactly the handles of the registered streams
    that own their life cycle and whose [end()] returns; for each owned
    handle whose [end()] throws it writes one [console.error] line
    instead and goes on.  The configuration is kept, and a second
    [cleanup] changes nothing more. *)
Theorem cleanup_tears_down_once m :
  streams (cleanup m) = []
  ∧ activeStreams (cleanup m) = ∅
  ∧ getMultiStreams (cleanup m) = []
  ∧ (∀ n, getStreamStatus n (cleanup m)
          = Err (String.append "Stream not found: " n))
  ∧ ended (cleanup m)
    = ended m
      ++ map stream
           (List.filter (fun s => autoEnd s && isOk (endStream (stream s)))
              (OrderedMap.values (streams m)))
  ∧ consoleErrors (cleanup m)
    = consoleErrors m
      ++ map (fun kv =>
                String.append "Error ending stream "
                  (String.append (fst kv) ":"))
           (List.filter
              (fun kv => autoEnd (snd kv) && isErr (endStream (stream (snd kv))))
              (streams m))
  ∧ config (cleanup m) = config m
  ∧ cleanup (cleanup m) = cleanup m.
Proof.
  split; [done|]. split; [done|]. split; [done|]. split; [done|].
  destruct (endOrReport_fold (streams m) m) as [H1 H2].
  split; [exact H1|]. split; [exact H2|]. split; [done|].
  done.
Qed.

(** X7: adding a stream under a name that is neither registered nor
    active and removing it again gives back the registry as it was,
    apart from the handle having been ended when the stream owned it,
    unless the new handle is one the registry owns and cannot end (a
    rotation stream under [autoEnd]): then [removeStream] returns the
    error of [end()] and the stream stays in the registry. *)
Theorem addStream_removeStream_round_trip h entry m res :
  OrderedMap.get (se_name entry) (streams m) = None →
  se_name entry ∉ activeStreams m →
  createStream h entry = Ok res →
  match endIfOwned res with
  | Ok _ =>
      removeStream (se_name entry) (snd (addStream h entry m))
      = (Ok tt,
         {| streams := streams m;
            activeStreams := activeStreams m;
            config := config m;
            ended := if autoEnd res then ended m ++ [stream res] else ended m;
            consoleErrors := consoleErrors m |})
  | Err e =>
      removeStream (se_name entry) (snd (addStream h entry m))
      = (Err e, snd (addStream h entry m))
      ∧ OrderedMap.get (se_name entry) (streams (snd (addStream h entry m)))
        = Some res
      ∧ se_name entry ∈ activeStreams (snd (addStream h entry m))
  end.
Proof.
  intros Hget Hact Hres. unfold addStream. rewrite Hres. simpl.
  unfold removeStream. simpl. rewrite get_set_eq.
  destruct (endIfOwned res) as [[]|e0].
  - simpl. rewrite delete_set_absent by done.
    f_equal. f_equal.
    apply set_eq. intros n.
    rewrite elem_of_difference, elem_of_union, elem_of_singleton.
    split; [tauto|]. intros Hn. split; [by right|]. by intros ->.
  - split; [done|]. split; [done|].
    apply elem_of_union. left. by apply elem_of_singleton.
Qed.

Lemma addStream_removeStream_round_trip_witness :
  OrderedMap.get "audit" (streams Samples.registry1) = None
  ∧ ("audit" ∉ activeStreams Samples.registry1)
  ∧ streams (snd (removeStream "audit"
                    (snd (addStream Samples.anyHost
                            (consoleEntry "audit" "warn") Samples.registry1))))
    = streams Samples.registry1
  ∧ removeStream "app" Samples.registry3
    = (Err "stream.stream.end is not a function", Samples.registry3).
Proof.
  assert (OrderedMap.get (se_name (consoleEntry "audit" "warn"))
            (streams Samples.registry1) = None) as H1
    by (vm_compute; reflexivity).
  assert (se_name (consoleEntry "audit" "warn")
          ∉ activeStreams Samples.registry1) as H2
    by (eapply (bool_decide_eq_false_1 _); vm_compute; reflexivity).
  assert (createStream Samples.anyHost (consoleEntry "audit" "warn")
          = Ok {| stream := Stdout; ms_level := "warn"; autoEnd := true |})
    as H3 by (vm_compute; reflexivity).
  assert (OrderedMap.get (se_name Samples.rollingEntry)
            (streams Samples.registry1) = None) as R1
    by (vm_compute; reflexivity).
  assert (se_name Samples.rollingEntry ∉ activeStreams Samples.registry1) as R2
    by (eapply (bool_decide_eq_false_1 _); vm_compute; reflexivity).
  assert (createStream Samples.anyHost Samples.rollingEntry
          = Ok Samples.rollingHandle) as R3 by (vm_compute; reflexivity).
  split; [exact H1|]. split; [exact H2|]. split.
  - change "audit" with (se_name (consoleEntry "audit" "warn")) at 1.
    pose proof (addStream_removeStream_round_trip _ _ _ _ H1 H2 H3) as H.
    cbn [endIfOwned autoEnd endStream stream] in H. by rewrite H.
  - exact (proj1 (addStream_removeStream_round_trip _ _ _ _ R1 R2 R3)).
Defined.

Lemma createDefaultStreams_registered h l : ∀ m n,
  is_Some (OrderedMap.get n (streams (fold_left (createDefaultStream h) l m)))
  ↔ is_Some (OrderedMap.get n (streams m))
    ∨ ∃ e, In e l ∧ se_name e = n ∧ isOk (createStream h e) = true.
Proof.
  induction l as [|e l IH]; intros m n; simpl.
  - split; [by left|]. intros [H|[e [[] _]]]. done.
  - rewrite IH. unfold createDefaultStream.
    destruct (createStream h e) as [res|msg] eqn:E; simpl.
    + destruct (decide (n = se_name e)) as [->|Hne].
      * rewrite get_set_eq. split; [intros _|by left; eexists].
        right. exists e. rewrite E. by split; [left|].
      * rewrite get_set_ne by done. split.
        -- intros [H|[e' [Hin H]]]; [by left|]. right. exists e'.
           split; [by right|done].
        -- intros [H|[e' [[->|Hin] [Hn Hok]]]]; [by left| |].
           ++ by subst.
           ++ right. exists e'. by split.
    + split.
      * intros [H|[e' [Hin H]]]; [by left|]. right. exists e'.
        split; [by right|done].
      * intros [H|[e' [[->|Hin] [Hn Hok]]]]; [by left| |].
        -- rewrite E in Hok. discriminate.
        -- right. exists e'. by split.
Qed.

Lemma createDefaultStreams_errors h l : ∀ m,
  length (consoleErrors (fold_left (createDefaultStream h) l m))
  = (length (consoleErrors m)
     + length (List.filter (fun e => isErr (createStream h e)) l))%nat.
Proof.
  induction l as [|e l IH]; intros m; simpl; [lia|].
  rewrite IH. unfold createDefaultStream, isErr.
  destruct (createStream h e) as [res|msg]; simpl; [lia|].
  rewrite length_app. simpl. lia.
Qed.

(** X8: [initialize] on a new [StreamManager] always succeeds; a
    descriptor whose stream does not construct is skipped with one
    [console.error] line and does not stop the others: the registered
    names are exactly the names of the descriptors that construct. *)
Theorem initialize_partial_success h c :
  fst (initialize h (new c)) = Ok tt
  ∧ (∀ n, is_Some (OrderedMap.get n (streams (snd (initialize h (new c)))))
          ↔ ∃ e, In e (Types.streams c) ∧ se_name e = n
                 ∧ isOk (createStream h e) = true)
  ∧ length (consoleErrors (snd (initialize h (new c))))
    = length (List.filter (fun e => isErr (createStream h e)) (Types.streams c)).
Proof.
  split; [done|]. split.
  - intros n. unfold initialize, createDefaultStreams. simpl.
    rewrite createDefaultStreams_registered. simpl.
    split; [intros [[x Hx]|H]; [discriminate|done]|by right].
  - unfold initialize, createDefaultStreams. simpl.
    by rewrite createDefaultStreams_errors.
Qed.

End StreamRegistryLifecycle.

(** ** Stream progress: estimates, completion, pausing, sweeping *)

Section StreamProgressMore.
Import StreamStateTracker.
Local Open Scope Z_scope.

Lemma Qpositive_lt q : Qpositive q = true → (0 < q)%Q.
Proof.
  unfold Qpositive. intros H. apply negb_true_iff in H.
  apply Qnot_le_lt. intros Hle. apply Qle_bool_iff in Hle. congruence.
Qed.

Lemma calculateEstimatedTime_nonneg now bytes total start q :
  calculateEstimatedTime now bytes total start = Some q → (0 <= q)%Q.
Proof.
  unfold calculateEstimatedTime.
  destruct (sizeKnown total) as [t|]; [|done].
  destruct ((t <=? 0) || (bytes <=? 0)) eqn:E1; [done|].
  destruct ((now - start <=? 0) || (t - bytes <=? 0)) eqn:E2.
  - intros [= <-]. apply Qle_refl.
  - destruct (Qpositive _) eqn:E3; [|done]. intros [= <-].
    apply orb_false_iff in E2 as [_ Hrem]. apply Z.leb_gt in Hrem.
    apply Qle_shift_div_l; [by apply Qpositive_lt|].
    rewrite Qmult_0_l. unfold Qle. simpl. lia.
Qed.

(** X10: for an identifier that is not tracked, [updateStreamProgress],
    [completeStream], [handleStreamError], [pauseStream] and
    [resumeStream] all return [Stream not found] and leave the tracker
    as it was. *)
Theorem untracked_stream_calls_fail sid tr :
  activeStreams tr !! sid = None →
  (∀ now nowEta bytes chunks,
      updateStreamProgress now nowEta sid bytes chunks tr
      = (Err (String.append "Stream not found: " sid), tr))
  ∧ (∀ now finalSize,
        completeStream now sid finalSize tr
        = (Err (String.append "Stream not found: " sid), tr))
  ∧ (∀ now n msg ctx,
        handleStreamError now sid n msg ctx tr
        = (Err (String.append "Stream not found: " sid), tr))
  ∧ (∀ now,
        pauseStream now sid tr
        = (Err (String.append "Stream not found: " sid), tr))
  ∧ (∀ now,
        resumeStream now sid tr
        = (Err (String.append "Stream not found: " sid), tr)).
Proof.
  intros H.
  unfold updateStreamProgress, completeStream, handleStreamError,
    pauseStream, resumeStream.
  rewrite H. repeat split.
Qed.

Lemma untracked_stream_calls_fail_witness :
  activeStreams Samples.progress2 !! "nope" = None
  ∧ updateStreamProgress 3000 3000 "nope" 10 1 Samples.progress2
    = (Err "Stream not found: nope", Samples.progress2)
  ∧ completeStream 3000 "nope" None Samples.progress2
    = (Err "Stream not found: nope", Samples.progress2).
Proof.
  assert (activeStreams Samples.progress2 !! "nope" = None) as H
    by (vm_compute; reflexivity).
  destruct (untracked_stream_calls_fail "nope" Samples.progress2 H)
    as [H1 [H2 _]].
  split; [exact H|]. split; [apply H1|apply H2].
Defined.

(** X11: the estimate that [updateStreamProgress] stores is never
    negative; it is absent when the expected size is unknown (or zero),
    and it is 0, not absent, once the received bytes reach a positive
    expected size. *)
Theorem estimate_never_negative now nowEta sid bytes chunks tr state prog :
  activeStreams tr !! sid = Some state →
  streamProgress tr !! sid = Some prog →
  ∃ prog',
    streamProgress (snd (updateStreamProgress now nowEta sid bytes chunks tr)) !! sid
    = Some prog'
    ∧ match estimatedTimeRemaining prog' with
      | Some q => (0 <= q)%Q
      | None => True
      end
    ∧ (sizeKnown (expectedSize state) = None →
       estimatedTimeRemaining prog' = None)
    ∧ (∀ total, expectedSize state = Some total → 0 < total → total <= bytes →
                estimatedTimeRemaining prog' = Some 0%Q).
Proof.
  intros Hs Hp. unfold updateStreamProgress. rewrite Hs, Hp. simpl.
  rewrite lookup_insert_eq. eexists. split; [reflexivity|]. simpl.
  split; [|split].
  - destruct (calculateEstimatedTime _ _ _ _) as [q|] eqn:E; [|done].
    by eapply calculateEstimatedTime_nonneg.
  - intros Hunknown. unfold calculateEstimatedTime. by rewrite Hunknown.
  - intros total Htotal Hpos Hreached. unfold calculateEstimatedTime.
    rewrite Htotal. simpl.
    assert ((total =? 0) = false) as -> by (apply Z.eqb_neq; lia).
    assert ((total <=? 0) = false) as -> by (apply Z.leb_gt; lia).
    assert ((bytes <=? 0) = false) as -> by (apply Z.leb_gt; lia).
    simpl.
    assert ((total - bytes <=? 0) = true) as -> by (apply Z.leb_le; lia).
    by rewrite orb_true_r.
Qed.

Lemma estimate_never_negative_witness :
  activeStreams Samples.sized1 !! "s2" <> None
  ∧ ∃ prog',
      streamProgress
        (snd (updateStreamProgress 2005 2005 "s2" 1000 2 Samples.sized1)) !! "s2"
      = Some prog'
      ∧ estimatedTimeRemaining prog' = Some 0%Q.
Proof.
  assert (activeStreams Samples.sized1 !! "s2"
          = Some {| id := "s2"; status := progress; st_startTime := 5;
                    contentType := "text/plain"; expectedSize := Some 1000;
                    bytesReceived := 500; chunksReceived := 1;
                    endTime := None; duration := None; pauseTime := None;
                    totalPauseDuration := None; st_error := None |}) as Hs
    by (vm_compute; reflexivity).
  assert (∃ p, streamProgress Samples.sized1 !! "s2" = Some p) as [p Hp]
    by (eexists; vm_compute; reflexivity).
  split; [rewrite Hs; discriminate|].
  destruct (estimate_never_negative 2005 2005 "s2" 1000 2 Samples.sized1 _ _
              Hs Hp) as [prog' [H1 [_ [_ H4]]]].
  exists prog'. split; [exact H1|].
  apply (H4 1000); [reflexivity|lia|lia].
Defined.

Lemma percentage_after_update now nowEta sid bytes chunks tr state prog total :
  activeStreams tr !! sid = Some state →
  streamProgress tr !! sid = Some prog →
  sizeKnown (expectedSize state) = Some total →
  ∃ state' prog',
    activeStreams (snd (updateStreamProgress now nowEta sid bytes chunks tr)) !! sid
    = Some state'
    ∧ streamProgress (snd (updateStreamProgress now nowEta sid bytes chunks tr)) !! sid
      = Some prog'
    ∧ expectedSize state' = expectedSize state
    ∧ percentage prog' = (inject_Z bytes / inject_Z total * 100)%Q.
Proof.
  intros Hs Hp Ht. unfold updateStreamProgress. rewrite Hs, Hp. simpl.
  rewrite !lookup_insert_eq. eexists _, _.
  split; [reflexivity|]. split; [reflexivity|]. simpl. by rewrite Ht.
Qed.

Lemma percent_le b1 b2 total :
  0 < total → b1 <= b2 →
  (inject_Z b1 / inject_Z total * 100 <= inject_Z b2 / inject_Z total * 100)%Q.
Proof.
  intros Hpos Hle. destruct total as [|p|p]; try lia.
  unfold Qle, Qdiv, Qmult, Qinv, inject_Z. simpl. nia.
Qed.

(** X12: with a positive expected size, the percentage stored by an
    update is [bytes / expectedSize * 100]; over two successive updates
    with non-decreasing byte counts it does not decrease, and it is not
    capped: it exceeds 100 as soon as more bytes than expected arrive. *)
Theorem percentage_monotone_uncapped
  n1 e1 n2 e2 sid b1 c1 b2 c2 tr state prog total :
  activeStreams tr !! sid = Some state →
  streamProgress tr !! sid = Some prog →
  expectedSize state = Some total →
  0 < total →
  b1 <= b2 →
  ∃ p1 p2,
    streamProgress (snd (updateStreamProgress n1 e1 sid b1 c1 tr)) !! sid
    = Some p1
    ∧ streamProgress
        (snd (updateStreamProgress n2 e2 sid b2 c2
                (snd (updateStreamProgress n1 e1 sid b1 c1 tr)))) !! sid
      = Some p2
    ∧ (percentage p1 <= percentage p2)%Q
    ∧ (total < b2 → (100 < percentage p2)%Q).
Proof.
  intros Hs Hp Ht Hpos Hle.
  assert (sizeKnown (expectedSize state) = Some total) as Hk.
  { rewrite Ht. simpl.
    by assert ((total =? 0) = false) as -> by (apply Z.eqb_neq; lia). }
  destruct (percentage_after_update n1 e1 sid b1 c1 tr state prog total Hs Hp Hk)
    as [s1 [p1 [Hs1 [Hp1 [Hsize1 Hperc1]]]]].
  assert (sizeKnown (expectedSize s1) = Some total) as Hk1 by by rewrite Hsize1.
  destruct (percentage_after_update n2 e2 sid b2 c2 _ s1 p1 total Hs1 Hp1 Hk1)
    as [s2 [p2 [Hs2 [Hp2 [Hsize2 Hperc2]]]]].
  exists p1, p2. split; [done|]. split; [done|].
  rewrite Hperc1, Hperc2. split; [by apply percent_le|].
  intros Hover. destruct total as [|p|p]; try lia.
  unfold Qlt, Qdiv, Qmult, Qinv, inject_Z. simpl. nia.
Qed.

Lemma percentage_monotone_uncapped_witness :
  ∃ p1 p2,
    streamProgress
      (snd (updateStreamProgress 1005 1005 "s2" 500 1 Samples.sized0)) !! "s2"
    = Some p1
    ∧ streamProgress
        (snd (updateStreamProgress 2005 2005 "s2" 1200 2
                (snd (updateStreamProgress 1005 1005 "s2" 500 1
                        Samples.sized0)))) !! "s2"
      = Some p2
    ∧ (percentage p1 <= percentage p2)%Q
    ∧ (100 < percentage p2)%Q.
Proof.
  assert (activeStreams Samples.sized0 !! "s2"
          = Some {| id := "s2"; status := started; st_startTime := 5;
                    contentType := "text/plain"; expectedSize := Some 1000;
                    bytesReceived := 0; chunksReceived := 0;
                    endTime := None; duration := None; pauseTime := None;
                    totalPauseDuration := None; st_error := None |}) as Hs
    by (vm_compute; reflexivity).
  assert (∃ p, streamProgress Samples.sized0 !! "s2" = Some p) as [p Hp]
    by (eexists; vm_compute; reflexivity).
  destruct (percentage_monotone_uncapped 1005 1005 2005 2005 "s2" 500 1 1200 2
              Samples.sized0 _ p 1000 Hs Hp) as [p1 [p2 [H1 [H2 [H3 H4]]]]];
    [reflexivity|lia|lia|].
  exists p1, p2. split; [exact H1|]. split; [exact H2|]. split; [exact H3|].
  apply H4. lia.
Defined.

End StreamProgressMore.

Section StreamLifecycleMore.
Import StreamStateTracker.
Local Open Scope Z_scope.

(** [completeStream] on a tracked stream pins the percentage to
    100 and the estimate to 0 whatever was received, stamps the end time
    and the duration since the start, and takes [finalSize] as the final
    byte count only when it is not zero: a [finalSize] of 0 is the same
    as none. *)
Theorem completeStream_pins_progress now sid finalSize tr state prog :
  activeStreams tr !! sid = Some state →
  streamProgress tr !! sid = Some prog →
  ∃ state' prog',
    completeStream now sid finalSize tr
    = (Ok tt, snd (completeStream now sid finalSize tr))
    ∧ activeStreams (snd (completeStream now sid finalSize tr)) !! sid
      = Some state'
    ∧ streamProgress (snd (completeStream now sid finalSize tr)) !! sid
      = Some prog'
    ∧ status state' = completed
    ∧ endTime state' = Some now
    ∧ duration state' = Some (now - startTime prog)
    ∧ percentage prog' = 100%Q
    ∧ estimatedTimeRemaining prog' = Some 0%Q
    ∧ bytesTransferred prog'
      = match finalSize with
        | Some n => if n =? 0 then bytesReceived state else n
        | None => bytesReceived state
        end
    ∧ completeStream now sid (Some 0) tr = completeStream now sid None tr.
Proof.
  intros Hs Hp. unfold completeStream. rewrite Hs, Hp. simpl.
  rewrite !lookup_insert_eq. eexists _, _.
  repeat (split; [reflexivity|]). simpl.
  split; [|done]. destruct finalSize as [n|]; [|done]. simpl.
  by destruct (n =? 0).
Qed.

Lemma completeStream_pins_progress_witness :
  ∃ state' prog',
    activeStreams (snd (completeStream 3005 "s2" None Samples.sized2)) !! "s2"
    = Some state'
    ∧ streamProgress (snd (completeStream 3005 "s2" None Samples.sized2)) !! "s2"
      = Some prog'
    ∧ status state' = completed
    ∧ percentage prog' = 100%Q
    ∧ bytesTransferred prog' = 800.
Proof.
  assert (activeStreams Samples.sized2 !! "s2"
          = Some {| id := "s2"; status := progress; st_startTime := 5;
                    contentType := "text/plain"; expectedSize := Some 1000;
                    bytesReceived := 800; chunksReceived := 2;
                    endTime := None; duration := None; pauseTime := None;
                    totalPauseDuration := None; st_error := None |}) as Hs
    by (vm_compute; reflexivity).
  assert (∃ p, streamProgress Samples.sized2 !! "s2" = Some p) as [p Hp]
    by (eexists; vm_compute; reflexivity).
  destruct (completeStream_pins_progress 3005 "s2" None Samples.sized2 _ p Hs Hp)
    as [s' [p' [_ [H1 [H2 [H3 [_ [_ [H4 [_ [H5 _]]]]]]]]]]].
  exists s', p'. split; [exact H1|]. split; [exact H2|]. split; [exact H3|].
  split; [exact H4|exact H5].
Defined.

(** X13: no status is terminal for [updateStreamProgress]: on a stream
    that was completed it succeeds, puts the status back to [progress]
    while the end time stays stamped, and replaces the pinned 100 by the
    recomputed percentage. *)
Theorem update_after_complete_reopens
  tEnd finalSize now nowEta sid bytes chunks tr state prog :
  activeStreams tr !! sid = Some state →
  streamProgress tr !! sid = Some prog →
  ∃ state' prog',
    fst (updateStreamProgress now nowEta sid bytes chunks
           (snd (completeStream tEnd sid finalSize tr))) = Ok tt
    ∧ activeStreams
        (snd (updateStreamProgress now nowEta sid bytes chunks
                (snd (completeStream tEnd sid finalSize tr)))) !! sid
      = Some state'
    ∧ streamProgress
        (snd (updateStreamProgress now nowEta sid bytes chunks
                (snd (completeStream tEnd sid finalSize tr)))) !! sid
      = Some prog'
    ∧ status state' = progress
    ∧ endTime state' = Some tEnd
    ∧ bytesReceived state' = bytes
    ∧ percentage prog'
      = match sizeKnown (expectedSize state') with
        | Some total => (inject_Z bytes / inject_Z total * 100)%Q
        | None => 0%Q
        end.
Proof.
  intros Hs Hp. unfold completeStream. rewrite Hs, Hp. simpl.
  unfold updateStreamProgress. simpl. rewrite !lookup_insert_eq. simpl.
  rewrite !lookup_insert_eq. eexists _, _.
  repeat (split; [reflexivity|]). reflexivity.
Qed.

Lemma update_after_complete_reopens_witness :
  ∃ state' prog',
    activeStreams
      (snd (updateStreamProgress 4005 4005 "s2" 900 3 Samples.sizedDone)) !! "s2"
    = Some state'
    ∧ streamProgress
        (snd (updateStreamProgress 4005 4005 "s2" 900 3 Samples.sizedDone)) !! "s2"
      = Some prog'
    ∧ status state' = progress
    ∧ endTime state' = Some 3005
    ∧ (percentage prog' == 90)%Q.
Proof.
  assert (activeStreams Samples.sized2 !! "s2"
          = Some {| id := "s2"; status := progress; st_startTime := 5;
                    contentType := "text/plain"; expectedSize := Some 1000;
                    bytesReceived := 800; chunksReceived := 2;
                    endTime := None; duration := None; pauseTime := None;
                    totalPauseDuration := None; st_error := None |}) as Hs
    by (vm_compute; reflexivity).
  assert (∃ p, streamProgress Samples.sized2 !! "s2" = Some p) as [p Hp]
    by (eexists; vm_compute; reflexivity).
  destruct (update_after_complete_reopens 3005 None 4005 4005 "s2" 900 3
              Samples.sized2 _ p Hs Hp)
    as [s' [p' [_ [H1 [H2 [H3 [H4 [_ H5]]]]]]]].
  exists s', p'. unfold Samples.sizedDone.
  split; [exact H1|]. split; [exact H2|]. split; [exact H3|].
  split; [exact H4|].
  rewrite H5.
  assert (expectedSize s' = Some 1000) as ->.
  { assert (expectedSize <$>
              activeStreams
                (snd (updateStreamProgress 4005 4005 "s2" 900 3
                        (snd (completeStream 3005 "s2" None Samples.sized2))))
                !! "s2" = Some (Some 1000)) as Hx by (vm_compute; reflexivity).
    rewrite H1 in Hx. by injection Hx. }
  vm_compute. reflexivity.
Defined.

End StreamLifecycleMore.

Section StreamPauseAndSweep.
Import StreamStateTracker.
Local Open Scope Z_scope.

Lemma pauseStream_in_progress t sid tr state :
  activeStreams tr !! sid = Some state →
  status state = progress →
  pauseStream t sid tr
  = (Ok tt,
     emit (Info, "Stream paused")
       (withState sid
          {| id := id state; status := paused;
             st_startTime := st_startTime state;
             contentType := contentType state;
             expectedSize := expectedSize state;
             bytesReceived := bytesReceived state;
             chunksReceived := chunksReceived state;
             endTime := endTime state; duration := duration state;
             pauseTime := Some t;
             totalPauseDuration := totalPauseDuration state;
             st_error := st_error state |} tr)).
Proof. intros Hs Hst. unfold pauseStream. by rewrite Hs, Hst. Qed.

(** X14: pausing a stream in progress at [t1] and resuming it at [t2]
    puts it back in progress with [t2 - t1] added to its total pause
    duration and no pause time left; a second [pauseStream] while paused
    changes nothing, so the first pause time is the one that counts. *)
Theorem pause_resume_accumulates t1 t1' t2 sid tr state :
  activeStreams tr !! sid = Some state →
  status state = progress →
  t1 ≠ 0 →
  pauseStream t1' sid (snd (pauseStream t1 sid tr))
  = (Ok tt, snd (pauseStream t1 sid tr))
  ∧ ∃ state',
      fst (resumeStream t2 sid (snd (pauseStream t1 sid tr))) = Ok tt
      ∧ activeStreams
          (snd (resumeStream t2 sid (snd (pauseStream t1 sid tr)))) !! sid
        = Some state'
      ∧ status state' = progress
      ∧ pauseTime state' = None
      ∧ totalPauseDuration state'
        = Some (match sizeKnown (totalPauseDuration state) with
                | Some d => d
                | None => 0
                end + (t2 - t1))
      ∧ bytesReceived state' = bytesReceived state
      ∧ st_startTime state' = st_startTime state.
Proof.
  intros Hs Hst Ht1.
  rewrite !(pauseStream_in_progress t1 sid tr state Hs Hst). simpl.
  split.
  - unfold pauseStream. simpl. rewrite lookup_insert_eq. simpl. reflexivity.
  - unfold resumeStream. simpl. rewrite lookup_insert_eq. simpl.
    assert ((t1 =? 0) = false) as -> by (by apply Z.eqb_neq).
    simpl. rewrite lookup_insert_eq. eexists.
    repeat (split; [reflexivity|]). reflexivity.
Qed.

Lemma pause_resume_accumulates_witness :
  ∃ state',
    activeStreams
      (snd (resumeStream 1800 "s2" (snd (pauseStream 1500 "s2" Samples.sized1))))
      !! "s2" = Some state'
    ∧ status state' = progress
    ∧ totalPauseDuration state' = Some 300.
Proof.
  assert (activeStreams Samples.sized1 !! "s2"
          = Some {| id := "s2"; status := progress; st_startTime := 5;
                    contentType := "text/plain"; expectedSize := Some 1000;
                    bytesReceived := 500; chunksReceived := 1;
                    endTime := None; duration := None; pauseTime := None;
                    totalPauseDuration := None; st_error := None |}) as Hs
    by (vm_compute; reflexivity).
  destruct (pause_resume_accumulates 1500 1600 1800 "s2" Samples.sized1 _ Hs)
    as [_ [s' [_ [H1 [H2 [_ [H3 _]]]]]]]; [reflexivity|lia|].
  exists s'. split; [exact H1|]. split; [exact H2|exact H3].
Defined.

(** X15: [handleStreamError] on a tracked stream appends exactly one
    record to that stream's error list, sets the status to [error] and
    stamps the end time; the lists of the other streams are untouched,
    and [startStream] on the same identifier starts over with an empty
    list. *)
Theorem handleStreamError_appends now sid n msg ctx tr state prog :
  activeStreams tr !! sid = Some state →
  streamProgress tr !! sid = Some prog →
  ∃ state',
    fst (handleStreamError now sid n msg ctx tr) = Ok tt
    ∧ getStreamErrors sid (snd (handleStreamError now sid n msg ctx tr))
      = getStreamErrors sid tr
        ++ [{| err_timestamp := now; err_name := n; err_message := msg;
               err_context := ctx |}]
    ∧ (∀ other, other ≠ sid →
         getStreamErrors other (snd (handleStreamError now sid n msg ctx tr))
         = getStreamErrors other tr)
    ∧ activeStreams (snd (handleStreamError now sid n msg ctx tr)) !! sid
      = Some state'
    ∧ status state' = error
    ∧ endTime state' = Some now
    ∧ (∀ t t' ctype size,
         getStreamErrors sid
           (snd (startStream t t' sid ctype size
                   (snd (handleStreamError now sid n msg ctx tr)))) = []).
Proof.
  intros Hs Hp. unfold handleStreamError. rewrite Hs, Hp. simpl.
  unfold getStreamErrors. simpl. rewrite !lookup_insert_eq. eexists.
  split; [reflexivity|]. split; [reflexivity|].
  split; [intros other Hne; by rewrite lookup_insert_ne|].
  split; [reflexivity|]. split; [reflexivity|]. split; [reflexivity|].
  intros. reflexivity.
Qed.

Lemma handleStreamError_appends_witness :
  getStreamErrors "s2"
    (snd (handleStreamError 1500 "s2" "Error" "socket hang up" []
            Samples.sized1))
  = [{| err_timestamp := 1500; err_name := "Error";
        err_message := "socket hang up"; err_context := [] |}].
Proof.
  assert (activeStreams Samples.sized1 !! "s2"
          = Some {| id := "s2"; status := progress; st_startTime := 5;
                    contentType := "text/plain"; expectedSize := Some 1000;
                    bytesReceived := 500; chunksReceived := 1;
                    endTime := None; duration := None; pauseTime := None;
                    totalPauseDuration := None; st_error := None |}) as Hs
    by (vm_compute; reflexivity).
  assert (∃ p, streamProgress Samples.sized1 !! "s2" = Some p) as [p Hp]
    by (eexists; vm_compute; reflexivity).
  destruct (handleStreamError_appends 1500 "s2" "Error" "socket hang up" []
              Samples.sized1 _ p Hs Hp) as [s' [_ [H _]]].
  rewrite H. reflexivity.
Defined.

Lemma sweep_lookup {V} now tr (m : gmap string V) sid :
  sweep now tr m !! sid = if expiredId now tr sid then None else m !! sid.
Proof.
  unfold sweep. rewrite map_lookup_filter.
  destruct (m !! sid) as [x|]; simpl; [|by destruct (expiredId now tr sid)].
  destruct (expiredId now tr sid) eqn:E; case_guard; simplify_eq; done.
Qed.

(** X16: the tracker's [cleanup] drops a stream from all four maps
    exactly when it has ended more than one hour before; a stream that
    has not ended is kept however old it is, and so is one that ended an
    hour ago or less. *)
Theorem cleanup_drops_only_long_ended now sid tr state :
  activeStreams tr !! sid = Some state →
  match endTime state with
  | Some e =>
      if (e =? 0) || (now - e <=? 3600000)
      then activeStreams (cleanup now tr) !! sid = Some state
           ∧ streamProgress (cleanup now tr) !! sid = streamProgress tr !! sid
           ∧ streamErrors (cleanup now tr) !! sid = streamErrors tr !! sid
           ∧ metrics (cleanup now tr) !! sid = metrics tr !! sid
      else activeStreams (cleanup now tr) !! sid = None
           ∧ streamProgress (cleanup now tr) !! sid = None
           ∧ streamErrors (cleanup now tr) !! sid = None
           ∧ metrics (cleanup now tr) !! sid = None
  | None =>
      activeStreams (cleanup now tr) !! sid = Some state
      ∧ streamProgress (cleanup now tr) !! sid = streamProgress tr !! sid
      ∧ streamErrors (cleanup now tr) !! sid = streamErrors tr !! sid
      ∧ metrics (cleanup now tr) !! sid = metrics tr !! sid
  end.
Proof.
  intros Hs. unfold cleanup. simpl. rewrite !sweep_lookup.
  unfold expiredId. rewrite Hs. unfold expired, sizeKnown, maxAge.
  destruct (endTime state) as [e|]; [|done].
  destruct (e =? 0) eqn:E0; simpl; [done|].
  destruct (now - e <=? 3600000) eqn:E1.
  - apply Z.leb_le in E1.
    assert ((60 * 60 * 1000 <? now - e) = false) as ->
      by (apply Z.ltb_ge; lia).
    done.
  - apply Z.leb_gt in E1.
    assert ((60 * 60 * 1000 <? now - e) = true) as ->
      by (apply Z.ltb_lt; lia).
    done.
Qed.

Lemma cleanup_drops_only_long_ended_witness :
  activeStreams (cleanup 3603006 Samples.sizedDone) !! "s2" = None
  ∧ streamProgress (cleanup 3603006 Samples.sizedDone) !! "s2" = None
  ∧ activeStreams (cleanup 3603006 Samples.sized2) !! "s2"
    = activeStreams Samples.sized2 !! "s2".
Proof.
  assert (∃ s, activeStreams Samples.sizedDone !! "s2" = Some s
               ∧ endTime s = Some 3005) as [s [Hs He]]
    by (eexists; split; vm_compute; reflexivity).
  assert (∃ s, activeStreams Samples.sized2 !! "s2" = Some s
               ∧ endTime s = None) as [s2 [Hs2 He2]]
    by (eexists; split; vm_compute; reflexivity).
  pose proof (cleanup_drops_only_long_ended 3603006 "s2" Samples.sizedDone s Hs)
    as H1.
  pose proof (cleanup_drops_only_long_ended 3603006 "s2" Samples.sized2 s2 Hs2)
    as H2.
  rewrite He in H1. rewrite He2 in H2. simpl in H1.
  destruct H1 as [Ha [Hb _]]. destruct H2 as [Hc _].
  split; [exact Ha|]. split; [exact Hb|]. by rewrite Hc, Hs2.
Defined.

End StreamPauseAndSweep.

(** ** Request tracking: counters, averages, updates, sweeping *)

Section RequestTrackingMore.
Import RequestContextTracker.
Local Open Scope Z_scope.

Lemma updateContext_statistics rid u tr :
  statistics (snd (updateContext rid u tr)) = statistics tr.
Proof. unfold updateContext. by destruct (requestContexts tr !! rid). Qed.

Lemma call_balanced tr c :
  balanced (statistics tr) → balanced (statistics (call tr c)).
Proof.
  unfold balanced. intros H. destruct c; simpl.
  - lia.
  - by rewrite updateContext_statistics.
  - unfold trackRequestStart. destruct (getContext rid tr); simpl; [|lia].
    by rewrite updateContext_statistics.
  - unfold trackRequestEnd.
    match goal with
    | |- context [updateContext rid ?u tr] =>
        pose proof (updateContext_statistics rid u tr) as Hst;
        destruct (updateContext rid u tr) as [[x|x] tr1]
    end; simpl in *.
    + rewrite Hst. destruct (400 <=? code); lia.
    + by rewrite Hst.
  - unfold trackRequestError.
    match goal with
    | |- context [updateContext rid ?u tr] =>
        pose proof (updateContext_statistics rid u tr) as Hst;
        destruct (updateContext rid u tr) as [[x|x] tr1]
    end; simpl in *.
    + rewrite Hst. lia.
    + by rewrite Hst.
  - unfold trackStreamState.
    match goal with
    | |- context [updateContext rid ?u tr] =>
        pose proof (updateContext_statistics rid u tr) as Hst;
        destruct (updateContext rid u tr) as [[x|x] tr1]
    end; simpl in *; by rewrite Hst.
  - unfold updateTokenUsage. destruct (getContext rid tr); [|done].
    by rewrite updateContext_statistics.
  - done.
  - done.
Qed.

(** X17: after any run of tracker calls on a new tracker,
    [totalRequests = activeRequests + completedRequests + failedRequests]. *)
Theorem request_counters_balanced cs now lg :
  totalRequests (statistics (calls cs (new now lg)))
  = activeRequests (statistics (calls cs (new now lg)))
    + completedRequests (statistics (calls cs (new now lg)))
    + failedRequests (statistics (calls cs (new now lg))).
Proof.
  assert (∀ tr, balanced (statistics tr) → balanced (statistics (calls cs tr)))
    as H.
  { induction cs as [|c cs IH]; intros tr Htr; simpl; [done|].
    apply IH. by apply call_balanced. }
  apply (H (new now lg)). unfold balanced. simpl. lia.
Qed.

End RequestTrackingMore.

Section RequestOutcomes.
Import RequestContextTracker.
Local Open Scope Z_scope.

(** X19: [trackRequestError] on a known request marks it [FAILED] with
    the duration since its start, stores the error, and counts one more
    failed and one less active request, but it does not feed the
    duration into [averageResponseTime], which keeps its value. *)
Theorem trackRequestError_skips_average now rid e code tr c :
  getContext rid tr = Some c →
  ∃ c',
    getContext rid (trackRequestError now rid e code tr) = Some c'
    ∧ status c' = Some RequestStatus.FAILED
    ∧ duration c' = Some (now - startTime c)
    ∧ endTime c' = Some now
    ∧ error c' = Some e
    ∧ statusCode c' = code
    ∧ failedRequests (statistics (trackRequestError now rid e code tr))
      = failedRequests (statistics tr) + 1
    ∧ activeRequests (statistics (trackRequestError now rid e code tr))
      = activeRequests (statistics tr) - 1
    ∧ averageResponseTime (statistics (trackRequestError now rid e code tr))
      = averageResponseTime (statistics tr).
Proof.
  intros H. unfold trackRequestError, updateContext. rewrite H.
  unfold getContext in *. rewrite H. simpl. rewrite lookup_insert_eq.
  eexists. repeat (split; [reflexivity|]). reflexivity.
Qed.

Lemma trackRequestError_skips_average_witness :
  ∃ c',
    getContext "r1"
      (trackRequestError 905 "r1"
         {| ei_name := "Error"; ei_message := "upstream timeout";
            ei_stack := None |} None Samples.requestsEnded) = Some c'
    ∧ status c' = Some RequestStatus.FAILED
    ∧ duration c' = Some 900
    ∧ statusCode c' = None
    ∧ averageResponseTime
        (statistics
           (trackRequestError 905 "r1"
              {| ei_name := "Error"; ei_message := "upstream timeout";
                 ei_stack := None |} None Samples.requestsEnded))
      = 100%float.
Proof.
  assert (∃ c, getContext "r1" Samples.requestsEnded = Some c
               ∧ startTime c = 5) as [c [Hc Hstart]]
    by (eexists; split; vm_compute; reflexivity).
  destruct (trackRequestError_skips_average 905 "r1"
              {| ei_name := "Error"; ei_message := "upstream timeout";
                 ei_stack := None |} None Samples.requestsEnded c Hc)
    as [c' [H1 [H2 [H3 [_ [_ [H4 [_ [_ H5]]]]]]]]].
  exists c'. split; [exact H1|]. split; [exact H2|].
  split; [by rewrite H3, Hstart|]. split; [exact H4|].
  rewrite H5. vm_compute. reflexivity.
Defined.

(** X20: [trackRequestEnd] on a known request sets the status to
    [FAILED] exactly when the status code is 400 or more and to
    [COMPLETED] otherwise, stamps end time, duration and status code,
    and replaces the whole metadata record by the single key
    [responseSize]; identity, method, url, start time and token usage
    are kept. *)
Theorem trackRequestEnd_outcome now rid code dur responseSize tr c :
  getContext rid tr = Some c →
  ∃ c',
    getContext rid (trackRequestEnd now rid code dur responseSize tr) = Some c'
    ∧ status c' = (if 400 <=? code then Some RequestStatus.FAILED
                   else Some RequestStatus.COMPLETED)
    ∧ endTime c' = Some now
    ∧ duration c' = Some dur
    ∧ statusCode c' = Some code
    ∧ metadata c'
      = [("responseSize",
          match responseSize with Some n => JNum n | None => JUndefined end)]
    ∧ (sessionId c', traceId c', method c', url c', startTime c', tokenUsage c')
      = (sessionId c, traceId c, method c, url c, startTime c, tokenUsage c)
    ∧ failedRequests (statistics (trackRequestEnd now rid code dur responseSize tr))
      = (if 400 <=? code then failedRequests (statistics tr) + 1
         else failedRequests (statistics tr))
    ∧ completedRequests
        (statistics (trackRequestEnd now rid code dur responseSize tr))
      = (if 400 <=? code then completedRequests (statistics tr)
         else completedRequests (statistics tr) + 1).
Proof.
  intros H. unfold trackRequestEnd, updateContext.
  unfold getContext in *. rewrite H. simpl. rewrite lookup_insert_eq.
  eexists. repeat (split; [reflexivity|]). reflexivity.
Qed.

Lemma trackRequestEnd_outcome_witness :
  ∃ c',
    getContext "r1"
      (trackRequestEnd 125 "r1" 500 120 None
         (trackStreamState "r1" STARTED (Some "first chunk") Samples.requests1))
    = Some c'
    ∧ status c' = Some RequestStatus.FAILED
    ∧ statusCode c' = Some 500
    ∧ metadata c' = [("responseSize", JUndefined)].
Proof.
  assert (∃ c, getContext "r1"
                 (trackStreamState "r1" STARTED (Some "first chunk")
                    Samples.requests1) = Some c) as [c Hc]
    by (eexists; vm_compute; reflexivity).
  destruct (trackRequestEnd_outcome 125 "r1" 500 120 None _ c Hc)
    as [c' [H1 [H2 [_ [_ [H3 [H4 _]]]]]]].
  exists c'. split; [exact H1|]. split; [exact H2|]. split; [exact H3|exact H4].
Defined.

Lemma updateTokenUsage_known rid d tr c :
  getContext rid tr = Some c →
  ∃ tr' c',
    updateTokenUsage rid d tr = (Ok tt, tr')
    ∧ getContext rid tr' = Some c'
    ∧ tokenUsage c'
      = {| promptTokens :=
             promptTokens (tokenUsage c) + orZero (d_promptTokens d);
           completionTokens :=
             completionTokens (tokenUsage c) + orZero (d_completionTokens d);
           totalTokens :=
             totalTokens (tokenUsage c) + orZero (d_totalTokens d) |}
    ∧ status c' = status c.
Proof.
  intros H. unfold updateTokenUsage. rewrite H.
  unfold updateContext. unfold getContext in *. rewrite H.
  eexists _, _. split; [reflexivity|]. simpl. rewrite lookup_insert_eq.
  split; [reflexivity|]. done.
Qed.

(** X21: [updateTokenUsage] fails with [Request context not found] and
    changes nothing for an unknown request; for a known one two updates
    in a row add both deltas to each of the three counters, an absent
    delta counting as 0, and [totalTokens] grows only by the [totalTokens]
    deltas: it is not recomputed from the other two. *)
Theorem updateTokenUsage_accumulates rid d1 d2 tr :
  match getContext rid tr with
  | None =>
      updateTokenUsage rid d1 tr
      = (Err (String.append "Request context not found: " rid), tr)
  | Some c =>
      ∃ c',
        fst (updateTokenUsage rid d2 (snd (updateTokenUsage rid d1 tr))) = Ok tt
        ∧ getContext rid
            (snd (updateTokenUsage rid d2 (snd (updateTokenUsage rid d1 tr))))
          = Some c'
        ∧ promptTokens (tokenUsage c')
          = promptTokens (tokenUsage c)
            + orZero (d_promptTokens d1) + orZero (d_promptTokens d2)
        ∧ completionTokens (tokenUsage c')
          = completionTokens (tokenUsage c)
            + orZero (d_completionTokens d1) + orZero (d_completionTokens d2)
        ∧ totalTokens (tokenUsage c')
          = totalTokens (tokenUsage c)
            + orZero (d_totalTokens d1) + orZero (d_totalTokens d2)
        ∧ status c' = status c
  end.
Proof.
  destruct (getContext rid tr) as [c|] eqn:H.
  - destruct (updateTokenUsage_known rid d1 tr c H)
      as [tr1 [c1 [E1 [H1 [T1 S1]]]]].
    destruct (updateTokenUsage_known rid d2 tr1 c1 H1)
      as [tr2 [c2 [E2 [H2 [T2 S2]]]]].
    rewrite E1. simpl. rewrite E2. simpl. exists c2.
    split; [done|]. split; [done|]. rewrite T2, T1, S2, S1. simpl.
    repeat split; lia.
  - unfold updateTokenUsage. by rewrite H.
Qed.

Lemma stale_sweep_lookup now tr rid :
  requestContexts (cleanupOldContexts now tr) !! rid
  = match requestContexts tr !! rid with
    | Some c => if stale now c then None else Some c
    | None => None
    end.
Proof.
  unfold cleanupOldContexts. simpl. rewrite map_lookup_filter.
  destruct (requestContexts tr !! rid) as [c|]; simpl; [|done].
  destruct (stale now c) eqn:E; case_guard; simplify_eq; done.
Qed.

(** X22: the periodic sweep removes a context exactly when its start
    time is more than thirty minutes old, whatever its status, and keeps
    every other context unchanged; the statistics are not adjusted, so
    [activeRequests] still counts a removed request that never ended. *)
Theorem cleanupOldContexts_by_age now rid tr c :
  getContext rid tr = Some c →
  startTime c ≠ 0 →
  (if startTime c <? now - 1800000
   then getContext rid (cleanupOldContexts now tr) = None
   else getContext rid (cleanupOldContexts now tr) = Some c)
  ∧ statistics (cleanupOldContexts now tr) = statistics tr.
Proof.
  intros H Hstart. unfold getContext in *. rewrite stale_sweep_lookup, H.
  unfold stale, maxAge.
  assert ((startTime c =? 0) = false) as -> by (by apply Z.eqb_neq).
  simpl. change (30 * 60 * 1000) with 1800000.
  by destruct (startTime c <? now - 1800000).
Qed.

Lemma cleanupOldContexts_by_age_witness :
  getContext "r1" (cleanupOldContexts 1800006 Samples.requests1) = None
  ∧ activeRequests (statistics (cleanupOldContexts 1800006 Samples.requests1))
    = 1.
Proof.
  assert (∃ c, getContext "r1" Samples.requests1 = Some c
               ∧ startTime c = 5) as [c [Hc Hstart]]
    by (eexists; split; vm_compute; reflexivity).
  assert (startTime c ≠ 0) as Hne by (rewrite Hstart; lia).
  destruct (cleanupOldContexts_by_age 1800006 "r1" Samples.requests1 c Hc Hne)
    as [H1 H2].
  rewrite Hstart in H1. simpl in H1.
  split; [exact H1|]. rewrite H2. vm_compute. reflexivity.
Defined.

End RequestOutcomes.

(** ** The error aggregator: counts per name, ranking, history queries *)

Section ErrorAggregatorMore.
Import ErrorLogger.
Local Open Scope Z_scope.

Lemma get_updateErrorCount_eq n counts :
  OrderedMap.get n (updateErrorCount n counts)
  = Some (match OrderedMap.get n counts with Some c => c | None => 0 end + 1).
Proof. unfold updateErrorCount. apply get_set_eq. Qed.

Lemma get_updateErrorCount_ne n n' counts :
  n' ≠ n →
  OrderedMap.get n' (updateErrorCount n counts) = OrderedMap.get n' counts.
Proof. intros H. unfold updateErrorCount. by apply get_set_ne. Qed.

Lemma callsNamed_cons n c calls :
  callsNamed n (c :: calls)
  = (if String.eqb (name (snd (fst c))) n then 1 else 0) + callsNamed n calls.
Proof.
  unfold callsNamed. cbn [List.filter].
  destruct (String.eqb (name (snd (fst c))) n); cbn [length]; lia.
Qed.

Lemma callsNamed_nonneg n calls : 0 <= callsNamed n calls.
Proof. unfold callsNamed. lia. Qed.

(** X23: the count kept for a name is its count before plus the number
    of [logError] calls made with an error of that name, whatever the
    history cap evicted; a name never logged keeps no entry. *)
Theorem errorCounts_exact_per_name calls : ∀ s n,
  OrderedMap.get n (errorCounts (logErrors calls s))
  = if callsNamed n calls =? 0
    then OrderedMap.get n (errorCounts s)
    else Some (match OrderedMap.get n (errorCounts s) with
               | Some c => c
               | None => 0
               end + callsNamed n calls).
Proof.
  induction calls as [|c calls IH]; intros s n; [done|].
  rewrite logErrors_cons, IH, errorCounts_logError, callsNamed_cons.
  pose proof (callsNamed_nonneg n calls) as Hk.
  destruct (String.eqb (name (snd (fst c))) n) eqn:E.
  - apply String.eqb_eq in E. subst n.
    rewrite get_updateErrorCount_eq.
    assert ((1 + callsNamed (name (snd (fst c))) calls =? 0) = false) as ->
      by (apply Z.eqb_neq; lia).
    destruct (callsNamed (name (snd (fst c))) calls =? 0) eqn:Ek.
    + apply Z.eqb_eq in Ek. f_equal. lia.
    + f_equal. lia.
  - apply String.eqb_neq in E.
    rewrite get_updateErrorCount_ne by done.
    replace (0 + callsNamed n calls) with (callsNamed n calls) by lia.
    done.
Qed.

Lemma insertByCount_perm x l : insertByCount x l ≡ₚ x :: l.
Proof.
  induction l as [|h r IH]; simpl; [done|].
  destruct (snd x <? snd h); [|done].
  rewrite IH. apply Permutation_swap.
Qed.

Lemma sortByCount_perm l : sortByCount l ≡ₚ l.
Proof.
  induction l as [|x l IH]; simpl; [done|].
  by rewrite insertByCount_perm, IH.
Qed.

Lemma insertByCount_sorted x l :
  StronglySorted byCountDesc l → StronglySorted byCountDesc (insertByCount x l).
Proof.
  induction l as [|h r IH]; simpl; intros Hs.
  - by repeat constructor.
  - apply StronglySorted_inv in Hs as [Hr Hh].
    destruct (snd x <? snd h) eqn:E.
    + apply Z.ltb_lt in E. constructor; [by apply IH|].
      rewrite insertByCount_perm. constructor; [unfold byCountDesc; lia|done].
    + apply Z.ltb_ge in E. constructor; [by constructor|].
      constructor; [done|].
      eapply Forall_impl; [exact Hh|]. unfold byCountDesc. intros y Hy. lia.
Qed.

Lemma sortByCount_sorted l : StronglySorted byCountDesc (sortByCount l).
Proof.
  induction l as [|x l IH]; simpl; [constructor|].
  by apply insertByCount_sorted.
Qed.

(** X24: [topErrors] holds at most ten entries of the name-to-count
    map, in descending order of count, and no entry left out has a
    larger count than one that is listed. *)
Theorem topErrors_ranked s :
  (length (topErrors (getErrorStatistics s)) <= 10)%nat
  ∧ StronglySorted byCountDesc (topErrors (getErrorStatistics s))
  ∧ (∀ e, e ∈ topErrors (getErrorStatistics s) → e ∈ errorCounts s)
  ∧ (∀ e t, e ∈ errorCounts s →
            e ∉ topErrors (getErrorStatistics s) →
            t ∈ topErrors (getErrorStatistics s) →
            snd e <= snd t).
Proof.
  unfold getErrorStatistics. simpl.
  pose proof (sortByCount_sorted (errorCounts s)) as Hs.
  pose proof (sortByCount_perm (errorCounts s)) as Hp.
  rewrite <- (take_drop 10 (sortByCount (errorCounts s))) in Hs.
  assert (∀ e, e ∈ errorCounts s
               ↔ e ∈ take 10 (sortByCount (errorCounts s))
                 ∨ e ∈ drop 10 (sortByCount (errorCounts s))) as Hsplit.
  { intros e. rewrite <- Hp at 1.
    rewrite <- (take_drop 10 (sortByCount (errorCounts s))) at 1.
    apply elem_of_app. }
  split; [rewrite length_take; lia|].
  split; [by eapply StronglySorted_app_1_l|].
  split.
  - intros e He. apply Hsplit. by left.
  - intros e t He Hout Ht. apply Hsplit in He as [He|He]; [done|].
    apply (StronglySorted_app_1_elem_of _ _ _ t e Hs Ht He).
Qed.

(** X25: [getErrorHistory] with a limit of 0 returns the whole history
    rather than nothing; with a positive limit it returns the most
    recent entries, never more than the limit; with a non-empty name
    every entry returned carries that name, and an empty name does not
    filter. *)
Theorem getErrorHistory_limits s :
  getErrorHistory 0 None s = errorHistory s
  ∧ (∀ limit nm, 0 < limit →
       (length (getErrorHistory limit nm s) <= Z.to_nat limit)%nat)
  ∧ (∀ limit, 0 < limit →
       getErrorHistory limit None s
       = sliceLast (Z.to_nat limit) (errorHistory s))
  ∧ (∀ limit n h, truthy n = true →
       h ∈ getErrorHistory limit (Some n) s → errorName h = n)
  ∧ (∀ limit, getErrorHistory limit (Some "") s = getErrorHistory limit None s).
Proof.
  unfold getErrorHistory, sliceFrom. split; [done|].
  split; [|split; [|split]].
  - intros limit nm Hpos.
    assert ((- limit <? 0) = true) as -> by (apply Z.ltb_lt; lia).
    rewrite length_drop. lia.
  - intros limit Hpos.
    assert ((- limit <? 0) = true) as -> by (apply Z.ltb_lt; lia).
    unfold sliceLast. f_equal. lia.
  - intros limit n h Ht. rewrite Ht. intros Hin.
    assert (h ∈ List.filter (fun h => String.eqb (errorName h) n)
                  (errorHistory s)) as Hf.
    { destruct (- limit <? 0); eapply subseteq_drop; exact Hin. }
    apply list_elem_of_In, filter_In in Hf as [_ Hf].
    by apply String.eqb_eq.
  - done.
Qed.

End ErrorAggregatorMore.

(** ** Configuration merging: the stream descriptors *)

Section StreamMergeFacts.
Import ConfigFileIntegration.

Lemma mergeString_streams field t get set v st :
  (∀ c s, streams (set c s) = streams c) →
  streams (mergedConfig (mergeString field t get set v st))
  = streams (mergedConfig st)
  ∧ conflicts (mergeString field t get set v st) = conflicts st.
Proof.
  intros Hset. unfold mergeString. destruct v as [s|]; [|done].
  destruct (truthy s && negb (String.eqb s (get (mergedConfig st)))); simpl;
    auto.
Qed.

Lemma mergeTimestamp_streams t v st :
  streams (mergedConfig (mergeTimestamp t v st)) = streams (mergedConfig st)
  ∧ conflicts (mergeTimestamp t v st) = conflicts st.
Proof.
  unfold mergeTimestamp. destruct v as [b|]; [|done].
  by destruct (negb (Bool.eqb b (timestamp (mergedConfig st)))).
Qed.

(** The inner loop appends the streams with a new name and reports the
    others. *)
Lemma mergeOneStream_fold t existing l : ∀ st,
  streams (mergedConfig (fold_left (mergeOneStream t existing) l st))
  = streams (mergedConfig st)
    ++ List.filter (fun e => negb (hasName existing (se_name e))) l
  ∧ conflicts (fold_left (mergeOneStream t existing) l st)
    = conflicts st
      ++ map (conflictLine t)
           (List.filter (fun e => hasName existing (se_name e)) l).
Proof.
  induction l as [|e l IH]; intros st; simpl.
  - by rewrite !app_nil_r.
  - destruct (IH (mergeOneStream t existing st e)) as [-> ->].
    unfold mergeOneStream.
    destruct (hasName existing (se_name e)); simpl.
    + split; [done|]. by rewrite <- app_assoc.
    + split; [|done]. by rewrite <- app_assoc.
Qed.

Lemma mergeStreams_effect t v st :
  streams (mergedConfig (mergeStreams t v st))
  = match v, streams (mergedConfig st) with
    | Some (s :: rest), [] => s :: rest
    | Some (s :: rest), _ :: _ =>
        streams (mergedConfig st)
        ++ List.filter
             (fun e => negb (hasName (map se_name (streams (mergedConfig st)))
                               (se_name e))) (s :: rest)
    | _, _ => streams (mergedConfig st)
    end
  ∧ conflicts (mergeStreams t v st)
    = match v, streams (mergedConfig st) with
      | Some (s :: rest), _ :: _ =>
          conflicts st
          ++ map (conflictLine t)
               (List.filter
                  (fun e => hasName (map se_name (streams (mergedConfig st)))
                              (se_name e)) (s :: rest))
      | _, _ => conflicts st
      end.
Proof.
  unfold mergeStreams. destruct v as [[|s rest]|]; try done.
  destruct (streams (mergedConfig st)) as [|s0 r0] eqn:E; [done|].
  destruct (mergeOneStream_fold t (map se_name (s0 :: r0)) (s :: rest) st)
    as [H1 H2].
  by rewrite H1, H2, E.
Qed.

Lemma mergeSource_effect st source :
  streams (mergedConfig (mergeSource st source))
  = match p_streams (src_config source), streams (mergedConfig st) with
    | Some (s :: rest), [] => s :: rest
    | Some (s :: rest), _ :: _ =>
        streams (mergedConfig st)
        ++ List.filter
             (fun e => negb (hasName (map se_name (streams (mergedConfig st)))
                               (se_name e))) (s :: rest)
    | _, _ => streams (mergedConfig st)
    end
  ∧ conflicts (mergeSource st source)
    = match p_streams (src_config source), streams (mergedConfig st) with
      | Some (s :: rest), _ :: _ =>
          conflicts st
          ++ map (conflictLine (src_type source))
               (List.filter
                  (fun e => hasName (map se_name (streams (mergedConfig st)))
                              (se_name e)) (s :: rest))
      | _, _ => conflicts st
      end.
Proof.
  unfold mergeSource.
  match goal with
  | |- context [mergeStreams ?t ?v ?st0] =>
      destruct (mergeStreams_effect t v st0) as [H1 H2];
      assert (streams (mergedConfig st0) = streams (mergedConfig st)
              ∧ conflicts st0 = conflicts st) as [Hs Hc]
  end.
  { repeat match goal with
           | |- context [mergeString ?f ?t ?g ?set ?v ?s0] =>
               destruct (mergeString_streams f t g set v s0) as [-> ->];
               [done|]
           end.
    match goal with
    | |- context [mergeTimestamp ?t ?v ?s0] =>
        destruct (mergeTimestamp_streams t v s0) as [-> ->]
    end.
    by apply mergeString_streams. }
  rewrite H1, H2, Hs, Hc. done.
Qed.

End StreamMergeFacts.

Section StreamMergeTheorems.
Import ConfigFileIntegration.

Lemma hasName_elem names n : hasName names n = true ↔ n ∈ names.
Proof.
  unfold hasName. rewrite existsb_exists. split.
  - intros [x [Hin Heq]]. apply String.eqb_eq in Heq. subst.
    by apply list_elem_of_In.
  - intros Hin. exists n. split; [by apply list_elem_of_In|].
    apply String.eqb_refl.
Qed.

Lemma mergeSource_extends st source :
  ∃ added,
    streams (mergedConfig (mergeSource st source))
    = streams (mergedConfig st) ++ added
    ∧ (∀ e, e ∈ added →
            (se_name e ∉ map se_name (streams (mergedConfig st)))
            ∧ se_name e ∈ declaredNames source).
Proof.
  destruct (mergeSource_effect st source) as [-> _].
  unfold declaredNames.
  destruct (p_streams (src_config source)) as [[|s rest]|].
  - exists []. rewrite app_nil_r. split; [done|]. by intros e ?%elem_of_nil.
  - destruct (streams (mergedConfig st)) as [|s0 r0] eqn:E.
    + exists (s :: rest). split; [done|]. intros e He. split.
      * apply not_elem_of_nil.
      * apply list_elem_of_In, in_map, list_elem_of_In, He.
    + eexists. split; [reflexivity|]. intros e He.
      apply list_elem_of_In, filter_In in He as [Hin Hnew].
      apply negb_true_iff in Hnew. split.
      * intros Hex. apply hasName_elem in Hex. congruence.
      * by apply list_elem_of_In, in_map.
  - exists []. rewrite app_nil_r. split; [done|]. by intros e ?%elem_of_nil.
Qed.

(** X26: in [mergeConfigs] the stream list only grows: what the
    sources merged so far have contributed stays in place as a prefix,
    and nothing a later source adds carries a name that is already
    there, so for streams the source processed first wins. *)
Theorem merged_streams_append_only pe l1 l2 :
  ∃ added,
    streams (mergedConfig (mergeConfigs pe (l1 ++ l2)))
    = streams (mergedConfig (mergeConfigs pe l1)) ++ added
    ∧ (∀ e, e ∈ added →
            se_name e ∉ map se_name (streams (mergedConfig (mergeConfigs pe l1)))).
Proof.
  unfold mergeConfigs. rewrite fold_left_app.
  generalize (fold_left mergeSource l1
                {| mergedConfig := initialMerged pe; mergedPaths := [];
                   conflicts := [] |}) as st.
  induction l2 as [|s l2 IH]; intros st; simpl.
  - exists []. rewrite app_nil_r. split; [done|]. by intros e ?%elem_of_nil.
  - destruct (mergeSource_extends st s) as [a1 [H1 Hn1]].
    destruct (IH (mergeSource st s)) as [a2 [H2 Hn2]].
    exists (a1 ++ a2). rewrite H2, H1, app_assoc. split; [done|].
    intros e [He|He]%elem_of_app.
    + by apply Hn1.
    + specialize (Hn2 e He). rewrite H1, map_app in Hn2.
      intros Hin. apply Hn2. apply elem_of_app. by left.
Qed.

(** X27: when a source that declares streams is merged into a
    configuration that already has some, every declared stream whose
    name is already present is left out and reported by one conflict
    line, in order, and the others are appended after the streams that
    were there. *)
Theorem mergeSource_reports_conflicts st source declared :
  streams (mergedConfig st) ≠ [] →
  p_streams (src_config source) = Some declared →
  streams (mergedConfig (mergeSource st source))
  = streams (mergedConfig st)
    ++ List.filter
         (fun e => negb (hasName (map se_name (streams (mergedConfig st)))
                           (se_name e))) declared
  ∧ conflicts (mergeSource st source)
    = conflicts st
      ++ map (conflictLine (src_type source))
           (List.filter
              (fun e => hasName (map se_name (streams (mergedConfig st)))
                          (se_name e)) declared).
Proof.
  intros Hne Hd. destruct (mergeSource_effect st source) as [-> ->].
  rewrite Hd. destruct declared as [|s rest].
  - simpl. by rewrite !app_nil_r.
  - by destruct (streams (mergedConfig st)).
Qed.

Lemma mergeSource_reports_conflicts_witness :
  map se_name
    (streams (mergedConfig
                (mergeSource (mergeConfigs Samples.envError [Samples.fileX])
                   Samples.presetXY)))
  = ["x"; "y"]
  ∧ map se_type
      (streams (mergedConfig
                  (mergeSource (mergeConfigs Samples.envError [Samples.fileX])
                     Samples.presetXY)))
    = ["console"; "console"]
  ∧ conflicts (mergeSource (mergeConfigs Samples.envError [Samples.fileX])
                 Samples.presetXY)
    = ["Stream 'x' conflict from preset"].
Proof.
  assert (streams (mergedConfig (mergeConfigs Samples.envError [Samples.fileX]))
          ≠ []) as H1 by (vm_compute; discriminate).
  assert (p_streams (src_config Samples.presetXY)
          = Some [fileEntry "x" "error" "/tmp/x.log"; consoleEntry "y" "warn"])
    as H2 by reflexivity.
  destruct (mergeSource_reports_conflicts _ _ _ H1 H2) as [-> ->].
  repeat split; vm_compute; reflexivity.
Defined.

Lemma NoDup_names_filter (P : StreamEntry → bool) l :
  NoDup (map se_name l) → NoDup (map se_name (List.filter P l)).
Proof.
  induction l as [|e l IH]; simpl; [done|]. intros Hnd.
  apply NoDup_cons in Hnd as [Hnot Hnd]. destruct (P e); simpl; [|by apply IH].
  apply NoDup_cons. split; [|by apply IH].
  intros Hin. apply Hnot.
  apply list_elem_of_In, in_map_iff in Hin as [x [Hx Hin]].
  apply filter_In in Hin as [Hin _].
  apply list_elem_of_In, in_map_iff. by exists x.
Qed.

Lemma mergeSource_names_unique st source :
  NoDup (map se_name (streams (mergedConfig st))) →
  NoDup (declaredNames source) →
  NoDup (map se_name (streams (mergedConfig (mergeSource st source)))).
Proof.
  intros Hst Hsrc. destruct (mergeSource_effect st source) as [-> _].
  unfold declaredNames in Hsrc.
  destruct (p_streams (src_config source)) as [[|s rest]|]; [done| |done].
  destruct (streams (mergedConfig st)) as [|s0 r0] eqn:E; [done|].
  rewrite map_app. apply NoDup_app. split; [done|]. split.
  - intros n Hn Hin.
    apply list_elem_of_In, in_map_iff in Hin as [x [Hx Hin]].
    apply filter_In in Hin as [_ Hnew]. apply negb_true_iff in Hnew.
    rewrite Hx in Hnew. apply hasName_elem in Hn. congruence.
  - by apply NoDup_names_filter.
Qed.

(** X28: if no source declares the same stream name twice, the merged
    configuration has no two streams of the same name. *)
Theorem merged_stream_names_unique pe sources :
  (∀ s, s ∈ sources → NoDup (declaredNames s)) →
  NoDup (map se_name (streams (mergedConfig (mergeConfigs pe sources)))).
Proof.
  intros Hall. unfold mergeConfigs.
  assert (NoDup (map se_name
                   (streams (mergedConfig
                               {| mergedConfig := initialMerged pe;
                                  mergedPaths := []; conflicts := [] |}))))
    as Hinit by constructor.
  revert Hinit.
  generalize ({| mergedConfig := initialMerged pe; mergedPaths := [];
                 conflicts := [] |}) as st.
  induction sources as [|s l IH]; intros st Hst; simpl; [done|].
  apply IH.
  - intros x Hx. apply Hall. by right.
  - apply mergeSource_names_unique; [done|]. apply Hall. by left.
Qed.

Lemma merged_stream_names_unique_witness :
  NoDup (map se_name
           (streams (mergedConfig
                       (mergeConfigs Samples.envError
                          [Samples.fileX; Samples.presetXY])))).
Proof.
  apply merged_stream_names_unique. intros s Hs.
  apply list_elem_of_In in Hs. destruct Hs as [<-|[<-|[]]].
  - vm_compute. apply NoDup_singleton.
  - vm_compute. apply NoDup_cons. split; [|apply NoDup_singleton].
    intros Hin. apply list_elem_of_singleton in Hin. discriminate Hin.
Defined.

(** X29: [mergeConfigs] injects no stream of its own: when the default
    configuration declares none and [LOG_STREAMS] is not set, a pass
    without configuration file and preset resolves to an empty stream
    list. *)
Theorem resolve_injects_no_stream pe now d :
  Types.streams d = [] →
  LOG_STREAMS pe = None →
  streams (mergedConfig (resolve pe now d None None)) = [].
Proof.
  intros Hd He. unfold resolve, collectConfigSources, sortByPriority. simpl.
  unfold mergeConfigs. simpl.
  destruct (mergeSource_effect
              {| mergedConfig := initialMerged pe; mergedPaths := [];
                 conflicts := [] |}
              (mkSource environment_src None
                 (toPartial (fst (loadEnvironmentConfig pe))) now)) as [H1 _].
  simpl in H1. unfold loadEnvironmentConfig in H1. rewrite He in H1.
  simpl in H1.
  match goal with
  | |- streams (mergedConfig (mergeSource ?st1 ?src)) = [] =>
      destruct (mergeSource_effect st1 src) as [H2 _]
  end.
  rewrite H2. simpl. rewrite Hd.
  unfold loadEnvironmentConfig. rewrite He. exact H1.
Qed.

Lemma resolve_injects_no_stream_witness :
  streams (mergedConfig (resolve Samples.envError 0 Samples.noStreams None None))
  = [].
Proof.
  apply resolve_injects_no_stream; reflexivity.
Defined.

End StreamMergeTheorems.

(** ** Stream construction and reconfiguration *)

Section StreamConstruction.
Import StreamManager.



Lemma get_Some_In {V} (n : string) (l : list (string * V)) v :
  OrderedMap.get n l = Some v → In (n, v) l.
Proof.
  induction l as [|[k w] r IH]; simpl; [done|].
  destruct (String.eqb n k) eqn:E.
  - apply String.eqb_eq in E. intros [= ->]. left. by subst.
  - intros H. right. by apply IH.
Qed.

(** What [cleanup] does with a registered stream that owns its handle:
    the handle is ended, or the failure of [end()] is reported. *)
Lemma cleanup_ends_or_reports m n s :
  OrderedMap.get n (streams m) = Some s →
  autoEnd s = true →
  match endStream (stream s) with
  | Ok _ => In (stream s) (ended (cleanup m))
  | Err _ =>
      In (String.append "Error ending stream " (String.append n ":"))
        (consoleErrors (cleanup m))
  end.
Proof.
  intros Hget Hauto. apply get_Some_In in Hget.
  destruct (endOrReport_fold (streams m) m) as [H1 H2].
  unfold cleanup. cbn [ended consoleErrors]. rewrite H1, H2.
  destruct (endStream (stream s)) as [[]|e] eqn:E.
  - apply in_or_app. right. apply in_map. apply filter_In. split.
    + unfold OrderedMap.values. apply in_map_iff. by exists (n, s).
    + by rewrite Hauto, E.
  - apply in_or_app. right. apply in_map_iff. exists (n, s).
    split; [done|]. apply filter_In. split; [done|].
    unfold isErr. cbn [snd]. by rewrite Hauto, E.
Qed.

Lemma createDefaultStreams_ended h l : ∀ m,
  ended (fold_left (createDefaultStream h) l m) = ended m.
Proof.
  induction l as [|e l IH]; intros m; simpl; [done|].
  rewrite IH. unfold createDefaultStream.
  by destruct (createStream h e).
Qed.

Lemma createDefaultStreams_keeps_errors h l x : ∀ m,
  In x (consoleErrors m) →
  In x (consoleErrors (fold_left (createDefaultStream h) l m)).
Proof.
  induction l as [|e l IH]; intros m Hin; simpl; [done|].
  apply IH. unfold createDefaultStream.
  destruct (createStream h e); simpl; [done|].
  apply in_or_app. by left.
Qed.

(** X30: a successful [LogManager.updateConfig] leaves the three
    trackers and the [initialized] flag as they were.  Of every stream
    of the old registry that owned its handle it either ends the handle
    or, when [end()] throws, writes the [console.error] line of
    [cleanup]; it registers exactly the streams of the new configuration
    that construct (streams added at run time are not carried over), and
    installs a logger built from the new configuration. *)
Theorem updateConfig_success_rebuilds h newConfig m m' :
  LogManager.updateConfig h newConfig m = (Ok tt, m') →
  LogManager.requestTracker m' = LogManager.requestTracker m
  ∧ LogManager.streamTracker m' = LogManager.streamTracker m
  ∧ LogManager.errorLogger m' = LogManager.errorLogger m
  ∧ LogManager.initialized m' = LogManager.initialized m
  ∧ (∀ n s,
       OrderedMap.get n (streams (LogManager.streamManager m)) = Some s →
       autoEnd s = true →
       match endStream (stream s) with
       | Ok _ => In (stream s) (ended (LogManager.streamManager m'))
       | Err _ =>
           In (String.append "Error ending stream " (String.append n ":"))
             (consoleErrors (LogManager.streamManager m'))
       end)
  ∧ (∀ n,
       is_Some (OrderedMap.get n (streams (LogManager.streamManager m')))
       ↔ ∃ e,
           In e (Types.streams
                   (LogConfigManager.getConfig (LogManager.configManager m')))
           ∧ se_name e = n ∧ isOk (createStream h e) = true)
  ∧ LogManager.logger m'
    = Some (Pino.pino
              (LogConfigManager.getConfig (LogManager.configManager m'))
              (getMultiStreams (LogManager.streamManager m'))).
Proof.
  unfold LogManager.updateConfig.
  destruct (LogConfigManager.updateConfig newConfig (LogManager.configManager m))
    as [[u|e] cm]; [|discriminate].
  unfold initialize. intros [= <-]. cbn [LogManager.requestTracker
    LogManager.streamTracker LogManager.errorLogger LogManager.initialized
    LogManager.streamManager LogManager.configManager LogManager.logger].
  repeat (split; [reflexivity|]).
  split; [|split; [|reflexivity]].
  - intros n s Hget Hauto. unfold createDefaultStreams.
    rewrite createDefaultStreams_ended.
    pose proof (cleanup_ends_or_reports
                  (updateConfig (LogConfigManager.getConfig cm)
                     (LogManager.streamManager m)) n s Hget Hauto) as H.
    destruct (endStream (stream s)); [exact H|].
    by apply createDefaultStreams_keeps_errors.
  - intros n. unfold createDefaultStreams.
    rewrite createDefaultStreams_registered. simpl.
    split; [intros [[x Hx]|H]; [discriminate|done]|by right].
Qed.

Lemma updateConfig_success_rebuilds_witness :
  ∃ m',
    LogManager.updateConfig Samples.anyHost Samples.toDebug Samples.manager1
    = (Ok tt, m')
    ∧ LogManager.requestTracker m' = LogManager.requestTracker Samples.manager1
    ∧ LogManager.initialized m' = LogManager.initialized Samples.manager1.
Proof.
  assert (LogManager.updateConfig Samples.anyHost Samples.toDebug
            Samples.manager1
          = (Ok tt,
             snd (LogManager.updateConfig Samples.anyHost Samples.toDebug
                    Samples.manager1))) as H by (vm_compute; reflexivity).
  destruct (updateConfig_success_rebuilds _ _ _ _ H) as [H1 [_ [_ [H2 _]]]].
  eexists. split; [exact H|]. split; [exact H1|exact H2].
Defined.

End StreamConstruction.
